(** * MPU6050 telemetry pipeline: producer ring buffer, server cache,
      admission control, configuration reload and request routing.

    Shallow embedding of [server_for_mpu6050/c_server/producer.c], of the
    header [producer.h] and of the caching, epoll-based revision of
    [server.c] (the one with [data_reader_thread], [wait_for_new_data] and
    the [g_active_connections] counter). *)

From Stdlib Require Import ZArith Lia ZifyNat String Ascii Floats.SpecFloat.
From stdpp Require Import base tactics option list strings pretty gmap.

Local Open Scope Z_scope.

(** ** Machine integers *)

Definition SIZE_MOD : Z := 2 ^ 64.       (* size_t and uint64_t *)
Definition INT_MIN : Z := - 2 ^ 31.
Definition INT_MAX : Z := 2 ^ 31 - 1.

(** Unsigned 64-bit wrap-around ([size_t], [uint64_t]). *)
Definition wrap64 (x : Z) : Z := x mod SIZE_MOD.

(** Two's complement wrap-around of a 32-bit [int] / [atomic_int]. *)
Definition wrap_int (x : Z) : Z := (x + 2 ^ 31) mod 2 ^ 32 - 2 ^ 31.

(** ** IEEE-754 binary32, the C type [float] *)

Definition float := spec_float.
Definition FLT_PREC : Z := 24.
Definition FLT_EMAX : Z := 128.

Definition f_zero : float := S754_zero false.
Definition f_add (x y : float) : float := SFadd FLT_PREC FLT_EMAX x y.
Definition f_div (x y : float) : float := SFdiv FLT_PREC FLT_EMAX x y.
(** Conversion of an unsigned integer to [float] (round to nearest even). *)
Definition f_of_Z (n : Z) : float := binary_normalize FLT_PREC FLT_EMAX n 0 false.

(** ** mpu6050_lib.h: [mpu6050_sample_float_t] *)

Record mpu6050_sample_float_t := mk_sample {
  ax : float; ay : float; az : float;
  gx : float; gy : float; gz : float;
  temp : float
}.

(** [= {0}] and [memset(.., 0, ..)]: every field is +0.0. *)
Definition sample_zero : mpu6050_sample_float_t :=
  mk_sample f_zero f_zero f_zero f_zero f_zero f_zero f_zero.

(** The seven [+=] of one iteration of the averaging loop. *)
Definition sample_add (a b : mpu6050_sample_float_t) : mpu6050_sample_float_t :=
  mk_sample (f_add (ax a) (ax b)) (f_add (ay a) (ay b)) (f_add (az a) (az b))
            (f_add (gx a) (gx b)) (f_add (gy a) (gy b)) (f_add (gz a) (gz b))
            (f_add (temp a) (temp b)).

(** The seven [/= shared_data->count]: the count is converted to [float]. *)
Definition sample_div (a : mpu6050_sample_float_t) (n : Z) : mpu6050_sample_float_t :=
  let d := f_of_Z n in
  mk_sample (f_div (ax a) d) (f_div (ay a) d) (f_div (az a) d)
            (f_div (gx a) d) (f_div (gy a) d) (f_div (gz a) d)
            (f_div (temp a) d).

(** ** producer.h *)

Definition BUFFER_SIZE : Z := 16.
Definition REFRESH_MS : Z := 100.
Definition SHM_NAME : string := "/data_buffer".
Definition SEM_NAME : string := "/data_sem".

(** Modelled from the spec: the field [current_sample], which the reader
    thread of the server reads, is declared by a revision of producer.h that
    is missing; the segment is described as holding the latest Sample, so it
    is a sample field of the segment, which producer.c never assigns.

    The other fields of [shared_data_t] ([buffer], [average], [count],
    [write_index]) are those of producer.h. *)
Record shared_data_t := mk_shared {
  buffer : list mpu6050_sample_float_t;
  current_sample : mpu6050_sample_float_t;
  average : mpu6050_sample_float_t;
  count : Z;
  write_index : Z
}.

(** [memset(shared_data, 0, sizeof(shared_data_t))]. *)
Definition shared_data_zero : shared_data_t :=
  mk_shared (replicate (Z.to_nat BUFFER_SIZE) sample_zero)
            sample_zero sample_zero 0 0.

(** [buffer[i]]; the code only reads slots below [count <= BUFFER_SIZE]. *)
Definition buffer_at (buf : list mpu6050_sample_float_t) (i : nat)
  : mpu6050_sample_float_t :=
  default sample_zero (buf !! i).

(** ** producer.c *)

(** The loop [for (size_t i = 0; i < count; i++) avg.x += buffer[i].x],
    started at index [i] with [n] iterations left. *)
Fixpoint sum_loop (buf : list mpu6050_sample_float_t) (i n : nat)
    (avg : mpu6050_sample_float_t) : mpu6050_sample_float_t :=
  match n with
  | O => avg
  | S n' => sum_loop buf (S i) n' (sample_add avg (buffer_at buf i))
  end.

(** Lines 140-163: the average over the currently filled slots. *)
Definition compute_average (buf : list mpu6050_sample_float_t) (cnt : Z)
  : mpu6050_sample_float_t :=
  let avg := sum_loop buf 0 (Z.to_nat cnt) sample_zero in
  if 0 <? cnt then sample_div avg cnt else avg.

(** Lines 135-163, the critical section between [sem_wait] and [sem_post]. *)
Definition producer_write (sd : shared_data_t) (sample : mpu6050_sample_float_t)
  : shared_data_t :=
  let buffer' := <[Z.to_nat (write_index sd) := sample]> (buffer sd) in
  let write_index' := wrap64 (write_index sd + 1) mod BUFFER_SIZE in
  let count' :=
    if count sd <? BUFFER_SIZE then wrap64 (count sd + 1) else count sd in
  mk_shared buffer' (current_sample sd)
            (compute_average buffer' count') count' write_index'.

(** The successful cycles of the main loop, in order, on a segment. *)
Definition producer_writes (sd : shared_data_t)
    (samples : list mpu6050_sample_float_t) : shared_data_t :=
  foldl producer_write sd samples.

(** *** Logical contents of the ring *)

(** Slot of the oldest valid entry. *)
Definition oldest_index (sd : shared_data_t) : Z :=
  (write_index sd + BUFFER_SIZE - count sd) mod BUFFER_SIZE.

(** The valid entries read from the oldest slot onwards, wrapping around. *)
Definition valid_entries (sd : shared_data_t) : list mpu6050_sample_float_t :=
  map (fun k : nat =>
         buffer_at (buffer sd)
                   (Z.to_nat ((oldest_index sd + Z.of_nat k) mod BUFFER_SIZE)))
      (seq 0 (Z.to_nat (count sd))).

(** The [k] most recent elements of a history. *)
Definition most_recent {A} (k : nat) (l : list A) : list A :=
  drop (length l - k) l.



(** ** C strings and the libc routines the server relies on *)

Definition char_LF : ascii := ascii_of_nat 10.
Definition char_CR : ascii := ascii_of_nat 13.
Definition char_DQ : ascii := ascii_of_nat 34.

(** The C string literals of the sources are transcribed with a backquote
    standing for the double quote; the escapes [\n], [\r] and [\\] are
    written as in C and decoded here. *)
Fixpoint cstr (s : string) : string :=
  match s with
  | EmptyString => EmptyString
  | String "\" (String "n" r) => String char_LF (cstr r)
  | String "\" (String "r" r) => String char_CR (cstr r)
  | String "\" (String "\" r) => String "\" (cstr r)
  | String "`" r => String char_DQ (cstr r)
  | String c r => String c (cstr r)
  end.

Fixpoint string_take (n : nat) (s : string) : string :=
  match n, s with
  | S n', String c r => String c (string_take n' r)
  | _, _ => EmptyString
  end.

Fixpoint string_repeat (c : ascii) (n : nat) : string :=
  match n with
  | O => EmptyString
  | S n' => String c (string_repeat c n')
  end.

(** [isspace] in the C locale: space, [\t], [\n], [\v], [\f], [\r]. *)
Definition isspace (c : ascii) : bool :=
  let n := nat_of_ascii c in
  (n =? 32)%nat || ((9 <=? n)%nat && (n <=? 13)%nat).

Definition is_nul (c : ascii) : bool := (nat_of_ascii c =? 0)%nat.

Definition isdigit (c : ascii) : bool :=
  let n := nat_of_ascii c in (48 <=? n)%nat && (n <=? 57)%nat.

(** Leading white space, skipped by a white-space directive and by the
    conversions [%s] and [%d]. *)
Fixpoint skip_space (s : string) : string :=
  match s with
  | String c r => if isspace c then skip_space r else s
  | EmptyString => s
  end.

(** The characters taken by [%<width>s]: at most [width] characters, up to
    white space or the end of the C string. *)
Fixpoint scan_word (width : nat) (s : string) : string * string :=
  match width, s with
  | S w, String c r =>
      if isspace c || is_nul c then (EmptyString, s)
      else let '(tok, rest) := scan_word w r in (String c tok, rest)
  | _, _ => (EmptyString, s)
  end.

(** One [%<width>s] conversion: [None] when nothing can be converted. *)
Definition scan_s (width : nat) (s : string) : option (string * string) :=
  match scan_word width (skip_space s) with
  | (EmptyString, _) => None
  | (tok, rest) => Some (tok, rest)
  end.

(** [%.6f] of a [float] (promoted to [double], which is exact): the value
    rounded to six decimals, ties to even as under the default rounding
    mode. *)
Definition round_half_even (num den : Z) : Z :=
  let q := num / den in
  let r := num mod den in
  if 2 * r <? den then q
  else if den <? 2 * r then q + 1
  else if Z.even q then q else q + 1.

Definition pad6 (n : Z) : string :=
  let d := pretty n in
  string_repeat "0" (6 - String.length d) +:+ d.

Definition sign_string (s : bool) : string :=
  if s then "-" else EmptyString.

Definition printf_f6 (x : float) : string :=
  match x with
  | S754_zero s => sign_string s +:+ "0.000000"
  | S754_infinity s => sign_string s +:+ "inf"
  | S754_nan => "nan"
  | S754_finite s m e =>
      let num := Z.pos m * 10 ^ 6 in
      let scaled :=
        if 0 <=? e then num * 2 ^ e else round_half_even num (2 ^ (- e)) in
      sign_string s +:+ pretty (scaled / 10 ^ 6) +:+ "." +:+ pad6 (scaled mod 10 ^ 6)
  end.

(** The arguments and the conversions the sources pass to [snprintf]:
    [%.6f], [%d], [%ld], [%s] and [%.*s]. *)
Inductive printf_arg :=
| Arg_f (x : float)
| Arg_d (n : Z)
| Arg_s (s : string).

Fixpoint sprintf (fmt : string) (args : list printf_arg) : string :=
  match fmt with
  | EmptyString => EmptyString
  | String "%" directive =>
      match directive, args with
      | String "d" r, Arg_d n :: args' => pretty n +:+ sprintf r args'
      | String "l" (String "d" r), Arg_d n :: args' => pretty n +:+ sprintf r args'
      | String "s" r, Arg_s s :: args' => s +:+ sprintf r args'
      | String "." (String "6" (String "f" r)), Arg_f x :: args' =>
          printf_f6 x +:+ sprintf r args'
      | String "." (String "*" (String "s" r)), Arg_d n :: Arg_s s :: args' =>
          string_take (Z.to_nat n) s +:+ sprintf r args'
      | _, _ => EmptyString
      end
  | String c r => String c (sprintf r args)
  end.

(** [snprintf(buf, size, fmt, ...)]: the buffer receives at most [size - 1]
    characters; the result is the length the whole output would have. *)
Definition snprintf (size : nat) (fmt : string) (args : list printf_arg)
  : string * Z :=
  let out := sprintf (cstr fmt) args in
  (string_take (size - 1) out, Z.of_nat (String.length out)).

(** ** server.c: the in-process cache *)

(** [cached_data_t] without its mutex and condition variable, which are part
    of the thread model below. *)
Record cached_data_t := mk_cache {
  cache_current_sample : mpu6050_sample_float_t;
  cache_average : mpu6050_sample_float_t;
  cache_version : Z                      (* uint64_t *)
}.

(** [static cached_data_t g_cached_data = { .version = 0 }]: static storage,
    so the two samples are zero as well. *)
Definition g_cached_data_init : cached_data_t :=
  mk_cache sample_zero sample_zero 0.

(** Lines 172-175 of [data_reader_thread], between [sem_wait] and
    [sem_post]: the two values copied out of the segment, [sample] first and
    [avg] second. *)
Definition shm_copy (sd : shared_data_t)
  : mpu6050_sample_float_t * mpu6050_sample_float_t :=
  (current_sample sd, buffer_at (buffer sd) (Z.to_nat (BUFFER_SIZE - 1))).

(** The three assignments of lines 178-180, made under the cache mutex. *)
Definition store_sample (c : cached_data_t) (s : mpu6050_sample_float_t) :=
  mk_cache s (cache_average c) (cache_version c).
Definition store_average (c : cached_data_t) (a : mpu6050_sample_float_t) :=
  mk_cache (cache_current_sample c) a (cache_version c).
Definition bump_version (c : cached_data_t) :=
  mk_cache (cache_current_sample c) (cache_average c)
           (wrap64 (cache_version c + 1)).

(** One iteration of the body of [data_reader_thread] run without
    interruption; [g_shared_data] is [None] while the segment (or the
    semaphore) is not attached. *)
Definition data_reader_iteration (g_shared_data : option shared_data_t)
    (c : cached_data_t) : cached_data_t :=
  match g_shared_data with
  | Some sd =>
      let '(sample, avg) := shm_copy sd in
      bump_version (store_average (store_sample c sample) avg)
  | None => c
  end.

(** [get_cached_data(&sample, &avg)] with both pointers non-null, as at its
    call site: the pair read under the mutex. *)
Definition get_cached_data (c : cached_data_t)
  : mpu6050_sample_float_t * mpu6050_sample_float_t :=
  (cache_current_sample c, cache_average c).

(** ** server.c: [conn_handler] *)

(** What a handler thread does to its socket and to the connection counter,
    in program order. *)
Inductive action :=
| Act_send (data : string)   (* [send(client_fd, data, len, MSG_NOSIGNAL)] *)
| Act_close                  (* [close(client_fd)] *)
| Act_shutdown               (* [shutdown(client_fd, SHUT_RDWR)] *)
| Act_close_epoll            (* [close(epfd)] *)
| Act_release_slot.          (* [conn_active_dec_cleanup]: the [atomic_fetch_sub] *)

(** One turn of the event-stream loop, as decided by [epoll_wait]. *)
Inductive sse_iteration :=
| Epoll_eintr                           (* [n < 0], [errno == EINTR] *)
| Epoll_fails                           (* [n < 0], any other error *)
| Epoll_timeout (seen : cached_data_t)  (* [n == 0]: the cache as read by *)
                (now : Z)               (*   [wait_for_new_data], [time(NULL)], *)
                (sent : Z)              (*   and the result of [send] *)
| Epoll_ready (events : Z).             (* [n > 0]: [rev.events] *)

(** What the outside world answers to one handler thread.  A send result of
    [None] stands for a complete send. *)
Record handler_env := mk_env {
  env_arg : bool;                        (* [arg != NULL] *)
  env_recv : option string;              (* bytes read by [recv]; [None]: error *)
  env_cache : cached_data_t;             (* the cache when [get_cached_data] runs *)
  env_time : Z;                          (* [time(NULL)] *)
  env_send_first : option Z;             (* result of the first [send] *)
  env_send_second : option Z;            (* result of the second [send] *)
  env_epoll_create : bool;               (* [epoll_create1] succeeded *)
  env_epoll_ctl : bool;                  (* [epoll_ctl] succeeded *)
  env_iterations : list sse_iteration    (* turns of the loop while [running] *)
}.

Definition send_result (r : option Z) (len : Z) : Z := default len r.

(** Line 249: [sscanf(request, "%15s %255s %15s", method, path, version)],
    [Some] exactly when the result is 3. *)
Definition sscanf_request (request : string) : option (string * string * string) :=
  match scan_s 15 request with
  | None => None
  | Some (method, r1) =>
      match scan_s 255 r1 with
      | None => None
      | Some (path, r2) =>
          match scan_s 15 r2 with
          | None => None
          | Some (version, _) => Some (method, path, version)
          end
      end
  end.

Inductive route :=
| Route_root          (* [strcmp(path, "/") == 0] *)
| Route_json          (* [strcmp(path, "/json") == 0] *)
| Route_events        (* [strcmp(path, "/events") == 0] *)
| Route_not_found.

Definition route_of_path (path : string) : route :=
  if String.eqb path "/" then Route_root
  else if String.eqb path "/json" then Route_json
  else if String.eqb path "/events" then Route_events
  else Route_not_found.

Definition root_page : string :=
  "<!doctype html>\n" +:+
  "<meta charset=`utf-8`>\n" +:+
  "<title>Live MPU6050</title>\n" +:+
  "<pre id=`out`>connecting...</pre>\n" +:+
  "<p><a href=`/json`>View JSON data</a></p>\n" +:+
  "<script>\n" +:+
  "const out = document.getElementById('out');\n" +:+
  "const es = new EventSource('/events');\n" +:+
  "es.onmessage = (e) => { out.textContent = e.data; };\n" +:+
  "es.onerror = () => { out.textContent += `\\n[stream error]`; };\n" +:+
  "</script>\n".

Definition root_header_format : string :=
  "HTTP/1.1 200 OK\r\n" +:+
  "Content-Type: text/html; charset=utf-8\r\n" +:+
  "Cache-Control: no-store\r\n" +:+
  "Content-Length: %d\r\n" +:+
  "Connection: close\r\n" +:+
  "\r\n".

Definition json_format : string :=
  "{`status`:`ok`," +:+
  "`sample`:{`ax`:%.6f,`ay`:%.6f,`az`:%.6f,`gx`:%.6f,`gy`:%.6f,`gz`:%.6f,`temp`:%.6f}," +:+
  "`average`:{`ax`:%.6f,`ay`:%.6f,`az`:%.6f,`gx`:%.6f,`gy`:%.6f,`gz`:%.6f,`temp`:%.6f}," +:+
  "`timestamp`:%ld}".

Definition json_args (local_sample local_avg : mpu6050_sample_float_t) (now : Z)
  : list printf_arg :=
  [Arg_f (ax local_sample); Arg_f (ay local_sample); Arg_f (az local_sample);
   Arg_f (gx local_sample); Arg_f (gy local_sample); Arg_f (gz local_sample);
   Arg_f (temp local_sample);
   Arg_f (ax local_avg); Arg_f (ay local_avg); Arg_f (az local_avg);
   Arg_f (gx local_avg); Arg_f (gy local_avg); Arg_f (gz local_avg);
   Arg_f (temp local_avg);
   Arg_d now].

Definition json_header_format : string :=
  "HTTP/1.1 200 OK\r\n" +:+
  "Content-Type: application/json\r\n" +:+
  "Content-Length: %d\r\n" +:+
  "Connection: close\r\n" +:+
  "\r\n".

Definition sse_header : string :=
  cstr ("HTTP/1.1 200 OK\r\n" +:+
        "Content-Type: text/event-stream; charset=utf-8\r\n" +:+
        "Cache-Control: no-cache, no-transform\r\n" +:+
        "Connection: keep-alive\r\n" +:+
        "Access-Control-Allow-Origin: *\r\n" +:+
        "X-Accel-Buffering: no\r\n" +:+
        "\r\n").

Definition sse_retry : string := cstr "retry: 100\n\n".

Definition not_found_page : string :=
  "<!doctype html><meta charset=`utf-8`><title>404 Not Found</title>" +:+
  "<h1>404 Not Found</h1>" +:+
  "<p>The requested path was not found.</p>" +:+
  "<p><a href=`/`>Go to home</a> | <a href=`/json`>View JSON</a> | <a href=`/events`>View Events</a></p>\n".

Definition not_found_header_format : string :=
  "HTTP/1.1 404 Not Found\r\n" +:+
  "Content-Type: text/html; charset=utf-8\r\n" +:+
  "Content-Length: %d\r\n" +:+
  "Connection: close\r\n" +:+
  "\r\n".

Definition EPOLLERR : Z := 8.
Definition EPOLLHUP : Z := 16.
Definition EPOLLRDHUP : Z := 8192.

(** Lines 494-502: the lengths are brought back into the buffers. *)
Definition clamp_len (size len : Z) : Z :=
  if len <? 0 then 0 else if size <=? len then size - 1 else len.

(** Lines 494-517: header, then body, then [close]. *)
Definition send_response (env : handler_env)
    (header body : string * Z) : list action :=
  let body_len := clamp_len 512 (snd body) in
  let header_len := clamp_len 256 (snd header) in
  let send_body :=
    (if 0 <? body_len
     then [Act_send (string_take (Z.to_nat body_len) (fst body))] else [])
    ++ [Act_close] in
  if 0 <? header_len then
    Act_send (string_take (Z.to_nat header_len) (fst header)) ::
    (if send_result (env_send_first env) header_len =? header_len
     then send_body else [Act_close])
  else send_body.

(** Lines 386-467: the loop of the event stream, [last_version] being the
    local of line 384; the list ends when [running] is found cleared. *)
Fixpoint sse_loop (iterations : list sse_iteration) (last_version : Z)
  : list action :=
  match iterations with
  | [] => []
  | Epoll_eintr :: rest => sse_loop rest last_version
  | Epoll_fails :: _ => []
  | Epoll_timeout seen now sent :: rest =>
      let new_version := cache_version seen in
      if new_version =? last_version then sse_loop rest last_version
      else
        let '(local_sample, local_avg) := get_cached_data seen in
        let json := snprintf 1024 json_format (json_args local_sample local_avg now) in
        let event := snprintf 1152 "data: %.*s\n\n" [Arg_d (snd json); Arg_s (fst json)] in
        Act_send (string_take (Z.to_nat (snd event)) (fst event)) ::
        (if sent <=? 0 then [] else sse_loop rest new_version)
  | Epoll_ready events :: rest =>
      if negb (Z.land events (Z.lor EPOLLRDHUP (Z.lor EPOLLHUP EPOLLERR)) =? 0)
      then []
      else sse_loop rest last_version        (* [EPOLLIN]: input is drained *)
  end.

(** Lines 332-475. *)
Definition serve_events (env : handler_env) : list action :=
  Act_send sse_header ::
  (if send_result (env_send_first env) (Z.of_nat (String.length sse_header)) <=? 0
   then [Act_close]
   else
     Act_send sse_retry ::
     (if send_result (env_send_second env) (Z.of_nat (String.length sse_retry)) <=? 0
      then [Act_close]
      else if negb (env_epoll_create env) then [Act_close]
      else if negb (env_epoll_ctl env) then [Act_close_epoll; Act_close]
      else sse_loop (env_iterations env) 0
           ++ [Act_close_epoll; Act_shutdown; Act_close])).

(** Lines 282-517: the answer on each of the four routes. *)
Definition serve (r : route) (env : handler_env) : list action :=
  let '(local_sample, local_avg) := get_cached_data (env_cache env) in
  match r with
  | Route_root =>
      let body := snprintf 512 "%s" [Arg_s (cstr root_page)] in
      let header := snprintf 256 root_header_format [Arg_d (snd body)] in
      send_response env header body
  | Route_json =>
      let body := snprintf 512 json_format
                           (json_args local_sample local_avg (env_time env)) in
      let header := snprintf 256 json_header_format [Arg_d (snd body)] in
      send_response env header body
  | Route_events => serve_events env
  | Route_not_found =>
      let body := snprintf 512 not_found_page [] in
      let header := snprintf 256 not_found_header_format [Arg_d (snd body)] in
      send_response env header body
  end.

(** Lines 233-517, between [pthread_cleanup_push] and the label [out]. *)
Definition conn_handler_body (env : handler_env) : list action :=
  if negb (env_arg env) then []
  else
    match env_recv env with
    | None | Some EmptyString => [Act_close]          (* [bytes_read <= 0] *)
    | Some received =>
        let request := string_take 1023 received in
        match sscanf_request request with
        | None => [Act_close]
        | Some (_, path, _) => serve (route_of_path path) env
        end
    end.

(** [conn_handler]: every path reaches [out:], where [pthread_cleanup_pop(1)]
    runs the cleanup handler. *)
Definition conn_handler (env : handler_env) : list action :=
  conn_handler_body env ++ [Act_release_slot].

(** A client that sends [request] and whose sends all succeed; the cache is
    [c] and the clock shows [now]. *)
Definition plain_env (request : string) (c : cached_data_t) (now : Z)
  : handler_env :=
  mk_env true (Some request) c now None None true true [].

(** *** Request lines, in the words of the specification *)

(** The first line of a request: everything before the first line feed. *)
Fixpoint first_line (s : string) : string :=
  match s with
  | EmptyString => EmptyString
  | String c r =>
      if Ascii.eqb c char_LF then EmptyString else String c (first_line r)
  end.

(** The white-space separated tokens of a string; [cur] is the token being
    read, in reverse. *)
Fixpoint tokens_from (cur : string) (s : string) : list string :=
  let flush := match cur with EmptyString => [] | _ => [String.rev cur] end in
  match s with
  | EmptyString => flush
  | String c r =>
      if isspace c then flush ++ tokens_from EmptyString r
      else tokens_from (String c cur) r
  end.

Definition whitespace_tokens (s : string) : list string :=
  tokens_from EmptyString s.

(** A token as [%s] sees it: not empty, without white space and without the
    terminating NUL. *)
Fixpoint token_chars (s : string) : bool :=
  match s with
  | EmptyString => true
  | String c r => negb (isspace c || is_nul c) && token_chars r
  end.

Definition is_token (s : string) : bool :=
  match s with EmptyString => false | _ => token_chars s end.

Fixpoint blank_chars (s : string) : bool :=
  match s with
  | EmptyString => true
  | String c r => isspace c && blank_chars r
  end.

(** A separator: one or more white-space characters. *)
Definition is_blank (s : string) : bool :=
  match s with EmptyString => false | _ => blank_chars s end.

Fixpoint string_drop (n : nat) (s : string) : string :=
  match n, s with
  | S n', String _ r => string_drop n' r
  | _, _ => s
  end.

(** What follows a token: the end of the string, white space or NUL. *)
Definition starts_delimiter (s : string) : Prop :=
  match s with
  | EmptyString => True
  | String c _ => isspace c || is_nul c = true
  end.


(** Number of times a handler run releases its connection slot. *)
Fixpoint releases (l : list action) : Z :=
  match l with
  | [] => 0
  | Act_release_slot :: r => 1 + releases r
  | _ :: r => releases r
  end.

(** ** server.c: configuration *)

Record server_config_t := mk_config {
  max_connnections : Z;
  backlog : Z;
  port : Z
}.

Definition DEFAULT_SERVER_CONFIG : server_config_t := mk_config 10 5 3737.

(** The literal part of a [fscanf] format matched against the input,
    character by character: the rest of the input when it matches. *)
Fixpoint scan_literal (lit input : string) : option string :=
  match lit with
  | EmptyString => Some input
  | String c l =>
      match input with
      | EmptyString => None
      | String d r => if Ascii.eqb c d then scan_literal l r else None
      end
  end.

(** The decimal digits at the head of the input, as a number. *)
Fixpoint scan_digits (s : string) (acc : Z) : Z * string :=
  match s with
  | String c r =>
      if isdigit c
      then scan_digits r (10 * acc + (Z.of_nat (nat_of_ascii c) - 48))
      else (acc, s)
  | EmptyString => (acc, s)
  end.

Definition starts_with_digit (s : string) : bool :=
  match s with String c _ => isdigit c | EmptyString => false end.

(** How [%d] stores a number that does not fit: [strtol] saturates at the
    bounds of [long] and the low 32 bits go into the [int].  Numbers that
    fit an [int] are stored as they are. *)
Definition store_int (v : Z) : Z :=
  wrap_int (Z.max (- 2 ^ 63) (Z.min (2 ^ 63 - 1) v)).

(** [%d]: leading white space, an optional sign, at least one digit. *)
Definition scan_d (input : string) : option (Z * string) :=
  let s := skip_space input in
  let '(negative, s1) :=
    match s with
    | String "-" r => (true, r)
    | String "+" r => (false, r)
    | _ => (false, s)
    end in
  if starts_with_digit s1 then
    let '(v, rest) := scan_digits s1 0 in
    Some (store_int (if negative then - v else v), rest)
  else None.

(** [fscanf(file, "<key>%d\n", &field)]: [Some] exactly when the result is
    1, with the value stored and the rest of the stream (the final [\n] of
    the format skips white space). *)
Definition fscanf_key (key : string) (input : string) : option (Z * string) :=
  match scan_literal key input with
  | None => None
  | Some r =>
      match scan_d r with
      | None => None
      | Some (v, rest) => Some (v, skip_space rest)
      end
  end.

(** [read_config_from_file]: [file] is the contents of [CONFIG_FILE], or
    [None] when [fopen] fails.  Each [fscanf] writes straight into the
    caller's structure. *)
Definition read_config_from_file (file : option string)
    (server_config : server_config_t) : Z * server_config_t :=
  match file with
  | None => (-1, server_config)
  | Some content =>
      match fscanf_key "max_connections=" content with
      | None => (-2, server_config)
      | Some (v1, r1) =>
          let c1 := mk_config v1 (backlog server_config) (port server_config) in
          match fscanf_key "backlog=" r1 with
          | None => (-2, c1)
          | Some (v2, r2) =>
              let c2 := mk_config v1 v2 (port server_config) in
              match fscanf_key "port=" r2 with
              | None => (-2, c2)
              | Some (v3, _) => (0, mk_config v1 v2 v3)
              end
          end
      end
  end.

(** Lines 526-537 of [main]: the configuration the server starts with. *)
Definition startup_config (file : option string) : server_config_t :=
  let '(rc, loaded) := read_config_from_file file (mk_config 0 0 0) in
  if rc =? 0 then loaded else DEFAULT_SERVER_CONFIG.

Definition SIGINT : Z := 2.
Definition SIGUSR2 : Z := 12.
Definition SIGTERM : Z := 15.
Definition SIGWINCH : Z := 28.

(** The globals [handle_signal] touches; [wakeups] counts the bytes written
    to the self-pipe. *)
Record server_globals := mk_globals {
  g_server_config : server_config_t;
  running : bool;
  sigpipe_open : bool;                   (* [sigpipe_fds[1] != -1] *)
  wakeups : Z
}.

(** [handle_signal]; [file] is what [CONFIG_FILE] holds when the signal
    arrives. *)
Definition handle_signal (sig : Z) (file : option string) (g : server_globals)
  : server_globals :=
  if sig =? SIGUSR2 then
    mk_globals (snd (read_config_from_file file (g_server_config g)))
               (running g) (sigpipe_open g) (wakeups g)
  else if (sig =? SIGTERM) || (sig =? SIGINT) then
    mk_globals (g_server_config g) false (sigpipe_open g)
               (if sigpipe_open g then wakeups g + 1 else wakeups g)
  else if sig =? SIGWINCH then g
  else g.                                 (* only a message is printed *)

(** ** server.c: the accept loop and the connection counter *)

(** Program points of the accept loop of [main]. *)
Inductive acceptor_pc :=
| Acc_select                                (* in [select], line 643 *)
| Acc_accepted (client_fd : Z)              (* [accept] returned, line 669 *)
| Acc_loaded (client_fd active_connections : Z)  (* line 678 done *)
| Acc_reserved (client_fd : Z).             (* line 700 done *)

Record server := mk_server {
  g_active_connections : Z;                 (* atomic_int *)
  acceptor : acceptor_pc;
  handlers : list Z;                        (* sockets of the live handler threads *)
  wire : list (Z * action)                  (* what was done to each socket *)
}.

Definition server_init : server := mk_server 0 Acc_select [] [].

Fixpoint remove_first (fd : Z) (l : list Z) : list Z :=
  match l with
  | [] => []
  | x :: r => if x =? fd then r else x :: remove_first fd r
  end.

Fixpoint mem_fd (fd : Z) (l : list Z) : bool :=
  match l with
  | [] => false
  | x :: r => (x =? fd) || mem_fd fd r
  end.

Inductive server_event :=
| Connection_accepted (client_fd : Z)  (* [select] and [accept] return *)
| Acceptor_steps (create_ok : bool)    (* next statement; result of [pthread_create] *)
| Handler_finishes (client_fd : Z) (env : handler_env).
                                       (* that handler thread runs to its end *)

(** The next statement of the accept loop, lines 678-711. *)
Definition acceptor_step (max : Z) (create_ok : bool) (st : server) : server :=
  match acceptor st with
  | Acc_select => st
  | Acc_accepted fd =>
      mk_server (g_active_connections st)
                (Acc_loaded fd (g_active_connections st))
                (handlers st) (wire st)
  | Acc_loaded fd active_connections =>
      if (0 <? max) && (max <=? active_connections) then
        mk_server (g_active_connections st) Acc_select (handlers st)
                  (wire st ++ [(fd, Act_close)])
      else if max =? 0 then
        mk_server (g_active_connections st) Acc_select (handlers st)
                  (wire st ++ [(fd, Act_close)])
      else
        mk_server (wrap_int (g_active_connections st + 1)) (Acc_reserved fd)
                  (handlers st) (wire st)
  | Acc_reserved fd =>
      if create_ok then
        mk_server (g_active_connections st) Acc_select
                  (handlers st ++ [fd]) (wire st)
      else
        mk_server (wrap_int (g_active_connections st - 1)) Acc_select
                  (handlers st) (wire st ++ [(fd, Act_close)])
  end.

Definition server_step (max : Z) (st : server) (e : server_event) : server :=
  match e with
  | Connection_accepted fd =>
      match acceptor st with
      | Acc_select =>
          mk_server (g_active_connections st) (Acc_accepted fd)
                    (handlers st) (wire st)
      | _ => st
      end
  | Acceptor_steps create_ok => acceptor_step max create_ok st
  | Handler_finishes fd env =>
      if mem_fd fd (handlers st) then
        let done := conn_handler env in
        mk_server (wrap_int (g_active_connections st - releases done))
                  (acceptor st) (remove_first fd (handlers st))
                  (wire st ++ map (fun a => (fd, a)) done)
      else st
  end.

(** The server under [max_connections = max]. *)
Definition server_run (max : Z) (st : server) (schedule : list server_event)
  : server :=
  foldl (server_step max) st schedule.

(** The slot reserved by line 700 for a thread that does not exist yet. *)
Definition reserved (st : server) : Z :=
  match acceptor st with Acc_reserved _ => 1 | _ => 0 end.

(** The clients [fds] connect one after the other and each gets its thread. *)
Fixpoint admit_all (fds : list Z) : list server_event :=
  match fds with
  | [] => []
  | fd :: r =>
      [Connection_accepted fd; Acceptor_steps true; Acceptor_steps true;
       Acceptor_steps true] ++ admit_all r
  end.

(** ** producer.c: [main] and the named objects of the system *)

(** The names under which POSIX shared memory and semaphores exist, with
    the contents of each shared-memory object. *)
Record os_names := mk_os {
  shm_objects : gmap string shared_data_t;
  named_semaphores : gset string
}.

(** What the producer process itself holds. *)
Record producer_handles := mk_handles {
  shm_fd_open : bool;
  segment_mapped : bool;
  semaphore_open : bool
}.

(** Results of the calls made at startup, and the cycles of the main loop
    until [running] is cleared: [Some sample] for a record that parsed,
    [None] for a cycle that is skipped. *)
Record producer_env := mk_producer_env {
  shm_open_ok : bool;
  ftruncate_ok : bool;
  mmap_ok : bool;
  sem_open_ok : bool;
  cycles : list (option mpu6050_sample_float_t)
}.

(** Lines 64-173: one turn of the loop on the mapped segment. *)
Definition producer_cycle (sd : shared_data_t)
    (c : option mpu6050_sample_float_t) : shared_data_t :=
  match c with
  | Some sample => producer_write sd sample
  | None => sd
  end.

(** [main] of producer.c: exit status, named objects and handles at exit. *)
Definition producer_main (env : producer_env) (os : os_names)
  : Z * os_names * producer_handles :=
  let none := mk_handles false false false in
  if negb (shm_open_ok env) then (1, os, none)
  else
    (* [shm_open(SHM_NAME, O_CREAT | O_RDWR)] *)
    let created :=
      match shm_objects os !! SHM_NAME with
      | Some _ => shm_objects os
      | None => <[SHM_NAME := shared_data_zero]> (shm_objects os)
      end in
    let os1 := mk_os created (named_semaphores os) in
    if negb (ftruncate_ok env) then (1, os1, none)
    else if negb (mmap_ok env) then (1, os1, none)
    else
      (* [memset] *)
      let os2 := mk_os (<[SHM_NAME := shared_data_zero]> created)
                       (named_semaphores os) in
      if negb (sem_open_ok env) then (1, os2, none)
      else
        (* [sem_open(SEM_NAME, O_CREAT, 0666, 1)], then the loop *)
        let sems := {[SEM_NAME]} ∪ named_semaphores os in
        let sd := foldl producer_cycle shared_data_zero (cycles env) in
        (* lines 175-181: [sem_close], [munmap], [close], [return 0] *)
        (0, mk_os (<[SHM_NAME := sd]> created) sems, none).

(** ** server.c: the threads around the cache

    The reader thread and any number of observers (connection handlers
    calling [get_cached_data] or [wait_for_new_data]) interleave statement
    by statement; the mutex decides who may enter a critical section. *)

Inductive thread_id :=
| T_reader
| T_observer (i : nat).

#[global] Instance thread_id_eq_dec : EqDecision thread_id.
Proof. solve_decision. Defined.

(** Program points of [data_reader_thread]. *)
Inductive reader_pc :=
| R_top                                            (* loop head, line 166 *)
| R_copied (s a : mpu6050_sample_float_t)          (* after [sem_post], line 175 *)
| R_locked (s a : mpu6050_sample_float_t)          (* mutex taken, line 177 *)
| R_sample_stored (a : mpu6050_sample_float_t)     (* after line 178 *)
| R_average_stored                                 (* after line 179 *)
| R_version_bumped.                                (* after line 180 *)

(** Program points of an observer: [G_] inside [get_cached_data], [W_]
    inside [wait_for_new_data]. *)
Inductive observer_pc :=
| O_idle
| G_locked                                          (* line 192 done *)
| G_sample (s : mpu6050_sample_float_t)             (* line 194 done *)
| G_average (s a : mpu6050_sample_float_t)          (* line 196 done *)
| G_returned (s a : mpu6050_sample_float_t)         (* line 197 done *)
| W_test                                            (* at the loop test, line 215 *)
| W_wait                                            (* inside [pthread_cond_timedwait] *)
| W_after_loop                                      (* loop left, before line 221 *)
| W_version (v : Z)                                 (* line 221 done *)
| W_sample (v : Z) (s : mpu6050_sample_float_t)     (* line 223 done *)
| W_average (v : Z) (s a : mpu6050_sample_float_t)  (* line 225 done *)
| W_returned (v : Z) (s a : mpu6050_sample_float_t). (* line 227 done *)

(** An observer keeps the [last_version] of the event loop (line 384). *)
Record observer := mk_observer {
  last_version : Z;
  pc : observer_pc
}.

(** A publication: the version made visible by line 180 with the pair that
    is in the cache at that moment. *)
Abbreviation publication :=
  (Z * mpu6050_sample_float_t * mpu6050_sample_float_t)%type.

Definition cache_triple (c : cached_data_t) : publication :=
  (cache_version c, cache_current_sample c, cache_average c).

Record system := mk_system {
  sys_shm : option shared_data_t;      (* g_shared_data / g_sem *)
  sys_cache : cached_data_t;           (* g_cached_data *)
  sys_mutex : option thread_id;        (* owner of g_cached_data.mutex *)
  sys_running : bool;                  (* running *)
  sys_reader : reader_pc;
  sys_observers : list observer;
  sys_log : list publication           (* history of line 180, oldest first *)
}.

Definition system_init (shm : option shared_data_t) : system :=
  mk_system shm g_cached_data_init None true R_top [] [].

Definition set_reader (st : system) (m : option thread_id)
    (c : cached_data_t) (r : reader_pc) (log : list publication) : system :=
  mk_system (sys_shm st) c m (sys_running st) r (sys_observers st) log.

Definition set_observer (st : system) (m : option thread_id)
    (i : nat) (o : observer) : system :=
  mk_system (sys_shm st) (sys_cache st) m (sys_running st) (sys_reader st)
            (<[i := o]> (sys_observers st)) (sys_log st).

(** The next statement of the reader thread. *)
Definition reader_step (st : system) : system :=
  let c := sys_cache st in
  match sys_reader st with
  | R_top =>
      if sys_running st then
        match sys_shm st with
        | Some sd =>
            let '(s, a) := shm_copy sd in
            set_reader st (sys_mutex st) c (R_copied s a) (sys_log st)
        | None => st                      (* only [usleep] *)
        end
      else st                             (* the thread has returned *)
  | R_copied s a =>
      match sys_mutex st with
      | None => set_reader st (Some T_reader) c (R_locked s a) (sys_log st)
      | Some _ => st                      (* blocked in [pthread_mutex_lock] *)
      end
  | R_locked s a =>
      set_reader st (sys_mutex st) (store_sample c s) (R_sample_stored a)
                 (sys_log st)
  | R_sample_stored a =>
      set_reader st (sys_mutex st) (store_average c a) R_average_stored
                 (sys_log st)
  | R_average_stored =>
      let c' := bump_version c in
      set_reader st (sys_mutex st) c' R_version_bumped
                 (sys_log st ++ [cache_triple c'])
  | R_version_bumped =>                   (* broadcast, unlock, [usleep] *)
      set_reader st None c R_top (sys_log st)
  end.

(** The next statement of observer [i].  [choice] picks the call made from
    [O_idle] ([true]: [get_cached_data], [false]: [wait_for_new_data]) and
    the result of [pthread_cond_timedwait] at [W_wait] ([true]:
    [ETIMEDOUT], [false]: woken, possibly spuriously). *)
Definition observer_step (i : nat) (choice : bool) (st : system) : system :=
  let c := sys_cache st in
  let me := Some (T_observer i) in
  match sys_observers st !! i with
  | None => st
  | Some o =>
      let at_pc p := mk_observer (last_version o) p in
      match pc o with
      | O_idle =>
          match sys_mutex st with
          | None => set_observer st me i (at_pc (if choice then G_locked else W_test))
          | Some _ => st
          end
      | G_locked =>
          set_observer st (sys_mutex st) i (at_pc (G_sample (cache_current_sample c)))
      | G_sample s =>
          set_observer st (sys_mutex st) i (at_pc (G_average s (cache_average c)))
      | G_average s a => set_observer st None i (at_pc (G_returned s a))
      | G_returned _ _ => set_observer st (sys_mutex st) i (at_pc O_idle)
      | W_test =>
          if (cache_version c =? last_version o) && sys_running st
          then set_observer st None i (at_pc W_wait)
          else set_observer st (sys_mutex st) i (at_pc W_after_loop)
      | W_wait =>
          match sys_mutex st with
          | None => set_observer st me i (at_pc (if choice then W_after_loop else W_test))
          | Some _ => st
          end
      | W_after_loop =>
          set_observer st (sys_mutex st) i (at_pc (W_version (cache_version c)))
      | W_version v =>
          set_observer st (sys_mutex st) i (at_pc (W_sample v (cache_current_sample c)))
      | W_sample v s =>
          set_observer st (sys_mutex st) i (at_pc (W_average v s (cache_average c)))
      | W_average v s a => set_observer st None i (at_pc (W_returned v s a))
      | W_returned v _ _ =>               (* lines 403-405 of the event loop *)
          set_observer st (sys_mutex st) i (mk_observer v O_idle)
      end
  end.

(** What can happen next in the system. *)
Inductive event :=
| Producer_writes (s : mpu6050_sample_float_t)  (* producer.c, under the semaphore *)
| Signal_stops                                  (* SIGTERM / SIGINT: [running = 0] *)
| Observer_arrives                              (* a handler starts, [last_version = 0] *)
| Reader_steps
| Observer_steps (i : nat) (choice : bool).

Definition system_step (st : system) (e : event) : system :=
  match e with
  | Producer_writes s =>
      mk_system (option_map (fun sd => producer_write sd s) (sys_shm st))
                (sys_cache st) (sys_mutex st) (sys_running st) (sys_reader st)
                (sys_observers st) (sys_log st)
  | Signal_stops =>
      mk_system (sys_shm st) (sys_cache st) (sys_mutex st) false (sys_reader st)
                (sys_observers st) (sys_log st)
  | Observer_arrives =>
      mk_system (sys_shm st) (sys_cache st) (sys_mutex st) (sys_running st)
                (sys_reader st) (sys_observers st ++ [mk_observer 0 O_idle])
                (sys_log st)
  | Reader_steps => reader_step st
  | Observer_steps i choice => observer_step i choice st
  end.

Definition system_run (st : system) (schedule : list event) : system :=
  foldl system_step st schedule.

(** A triple a reader may see: the initial one or one made by line 180. *)
Definition published (st : system) (p : publication) : Prop :=
  p = cache_triple g_cached_data_init \/ p ∈ sys_log st.

(** *** Concrete readings, to run the model *)

(** A sample whose seven fields are the floats of [k], [k+1], ..., [k+6]. *)
Definition reading (k : Z) : mpu6050_sample_float_t :=
  mk_sample (f_of_Z k) (f_of_Z (k + 1)) (f_of_Z (k + 2))
            (f_of_Z (k + 3)) (f_of_Z (k + 4)) (f_of_Z (k + 5)) (f_of_Z (k + 6)).

(** Readings number [from], ..., [from + n - 1]. *)
Definition readings (from : Z) (n : nat) : list mpu6050_sample_float_t :=
  map (fun i : nat => reading (from + Z.of_nat i)) (seq 0 n).

(** A segment after twenty producer cycles and a schedule in which one
    observer waits in [wait_for_new_data] across the first publication. *)
Definition demo_segment : shared_data_t :=
  producer_writes shared_data_zero (readings 1 20).

Definition demo_schedule : list event :=
  [Observer_arrives;
   Observer_steps 0 false; Observer_steps 0 false;
   Reader_steps; Reader_steps; Reader_steps;
   Reader_steps; Reader_steps; Reader_steps;
   Observer_steps 0 false; Observer_steps 0 false; Observer_steps 0 false;
   Observer_steps 0 false; Observer_steps 0 false; Observer_steps 0 false].

(** ** Further parts of the sources *)

(** *** server.c: the deadline of [wait_for_new_data] *)

Record timespec := mk_timespec {
  tv_sec : Z;                             (* time_t, 64 bits *)
  tv_nsec : Z                             (* long *)
}.

(** Two's complement wrap-around of a 64-bit [long]. *)
Definition wrap_long (x : Z) : Z := (x + 2 ^ 63) mod 2 ^ 64 - 2 ^ 63.

(** Lines 204-212: the absolute deadline, from the clock reading [now] and
    the [int] argument [timeout_ms]; [/] and [%] truncate toward zero. *)
Definition wait_deadline (now : timespec) (timeout_ms : Z) : timespec :=
  let sec := wrap_long (tv_sec now + Z.quot timeout_ms 1000) in
  let nsec :=
    wrap_long (tv_nsec now + wrap_int (Z.rem timeout_ms 1000 * 1000000)) in
  if 1000000000 <=? nsec
  then mk_timespec (wrap_long (sec + 1)) (wrap_long (nsec - 1000000000))
  else mk_timespec sec nsec.

(** Nanoseconds since the epoch denoted by a [timespec]. *)
Definition timespec_ns (t : timespec) : Z := tv_sec t * 1000000000 + tv_nsec t.

(** *** server.c: what a handler does to its socket *)

(** Number of [close(client_fd)] in a run. *)
Fixpoint closes (l : list action) : Z :=
  match l with
  | [] => 0
  | Act_close :: r => 1 + closes r
  | _ :: r => closes r
  end.


(** *** server.c: attaching to the segment *)

(** A pointer global of the server: [NULL], a live mapping or handle, the
    failure value ([MAP_FAILED], [SEM_FAILED]) or a mapping already unmapped. *)
Inductive pointer :=
| Ptr_null
| Ptr_live
| Ptr_failed
| Ptr_stale.

Record shm_globals := mk_shm_globals {
  g_shared_data : pointer;
  g_sem : pointer
}.

(** [init_shared_memory]: [shm_open] without [O_CREAT] and [sem_open]
    without [O_CREAT] succeed only on names that exist; [mmap_ok] is the
    result of [mmap]. *)
Definition init_shared_memory (os : os_names) (mmap_ok : bool) (g : shm_globals)
  : Z * shm_globals :=
  match shm_objects os !! SHM_NAME with
  | None => (-1, g)
  | Some _ =>
      if negb mmap_ok then (-1, mk_shm_globals Ptr_failed (g_sem g))
      else if decide (SEM_NAME ∈ named_semaphores os)
           then (0, mk_shm_globals Ptr_live Ptr_live)
           else (-1, mk_shm_globals Ptr_stale Ptr_failed)
  end.

(** [cleanup_shared_memory]: both tests are tests against [NULL]. *)
Definition cleanup_shared_memory (g : shm_globals) : shm_globals :=
  let g1 :=
    match g_shared_data g with
    | Ptr_null => g
    | _ => mk_shm_globals Ptr_null (g_sem g)
    end in
  match g_sem g1 with
  | Ptr_null => g1
  | _ => mk_shm_globals (g_shared_data g1) Ptr_null
  end.

(** What the reader thread finds at [if (g_shared_data && g_sem)]: the
    segment under [SHM_NAME] when both globals are live. *)
Definition attached_segment (os : os_names) (g : shm_globals)
  : option shared_data_t :=
  match g_shared_data g, g_sem g with
  | Ptr_live, Ptr_live => shm_objects os !! SHM_NAME
  | _, _ => None
  end.

(** *** server.c: a configuration file in the format the three [fscanf] read *)

Definition config_file_text (c : server_config_t) : string :=
  "max_connections=" +:+ pretty (max_connnections c) +:+ String char_LF
  ("backlog=" +:+ pretty (backlog c) +:+ String char_LF
  ("port=" +:+ pretty (port c) +:+ String char_LF EmptyString)).

(** Signals delivered one after the other, each with the contents of the
    configuration file at that moment. *)
Definition handle_signals (g : server_globals) (sigs : list (Z * option string))
  : server_globals :=
  foldl (fun g s => handle_signal s.1 s.2 g) g sigs.

Definition is_termination (sig : Z) : bool := (sig =? SIGTERM) || (sig =? SIGINT).

(** *** mpu6050_lib.h: the INT_PIN_CFG register *)

Definition MPU6050_INT_LEVEL_BIT : Z := 7.
Definition MPU6050_INT_OPEN_BIT : Z := 6.
Definition MPU6050_LATCH_INT_EN_BIT : Z := 5.
Definition MPU6050_INT_RD_CLEAR_BIT : Z := 4.
Definition MPU6050_FSYNC_INT_LEVEL_BIT : Z := 3.
Definition MPU6050_FSYNC_INT_EN_BIT : Z := 2.
Definition MPU6050_I2C_BYPASS_EN_BIT : Z := 1.

(** Conversion of an [int] to [char] ([mpu6050_int_pin_cfg_t]); plain [char]
    is signed on x86 and unsigned on ARM. *)
Definition to_char (char_signed : bool) (x : Z) : Z :=
  if char_signed then (x + 128) mod 256 - 128 else x mod 256.

(** [c ? 1 : 0] and [!!c]. *)
Definition truth (c : Z) : Z := if c =? 0 then 0 else 1.

(** [mpu6050_int_pin_cfg_pack]; each [v |= e] computes in [int] and stores
    back into the [char]. *)
Definition mpu6050_int_pin_cfg_pack (char_signed : bool)
    (level open_type latch int_rd_clear fsync_level fsync_en i2c_bypass : Z) : Z :=
  let or_in v e := to_char char_signed (Z.lor v e) in
  let v := 0 in
  let v := or_in v (Z.shiftl (Z.land level 1) MPU6050_INT_LEVEL_BIT) in
  let v := or_in v (Z.shiftl (Z.land open_type 1) MPU6050_INT_OPEN_BIT) in
  let v := or_in v (Z.shiftl (Z.land latch 1) MPU6050_LATCH_INT_EN_BIT) in
  let v := or_in v (Z.shiftl (truth int_rd_clear) MPU6050_INT_RD_CLEAR_BIT) in
  let v := or_in v (Z.shiftl (Z.land fsync_level 1) MPU6050_FSYNC_INT_LEVEL_BIT) in
  let v := or_in v (Z.shiftl (truth fsync_en) MPU6050_FSYNC_INT_EN_BIT) in
  let v := or_in v (Z.shiftl (truth i2c_bypass) MPU6050_I2C_BYPASS_EN_BIT) in
  v.

(** The seven outputs of [mpu6050_int_pin_cfg_unpack], all pointers given. *)
Record int_pin_cfg := mk_int_pin_cfg {
  cfg_level : Z;
  cfg_open_type : Z;
  cfg_latch : Z;
  cfg_int_rd_clear : Z;
  cfg_fsync_level : Z;
  cfg_fsync_en : Z;
  cfg_i2c_bypass : Z
}.

Definition mpu6050_int_pin_cfg_unpack (v : Z) : int_pin_cfg :=
  let bit b := Z.land (Z.shiftr v b) 1 in
  mk_int_pin_cfg (bit MPU6050_INT_LEVEL_BIT)
                 (bit MPU6050_INT_OPEN_BIT)
                 (bit MPU6050_LATCH_INT_EN_BIT)
                 (truth (bit MPU6050_INT_RD_CLEAR_BIT))
                 (bit MPU6050_FSYNC_INT_LEVEL_BIT)
                 (truth (bit MPU6050_FSYNC_INT_EN_BIT))
                 (truth (bit MPU6050_I2C_BYPASS_EN_BIT)).

(** *** Critical sections of the cache mutex *)

Definition reader_in_critical (r : reader_pc) : bool :=
  match r with
  | R_locked _ _ | R_sample_stored _ | R_average_stored | R_version_bumped => true
  | R_top | R_copied _ _ => false
  end.

Definition observer_in_critical (p : observer_pc) : bool :=
  match p with
  | G_locked | G_sample _ | G_average _ _
  | W_test | W_after_loop | W_version _ | W_sample _ _ | W_average _ _ _ => true
  | O_idle | G_returned _ _ | W_wait | W_returned _ _ _ => false
  end.

(** Publications the reader thread can still make once [running] is
    cleared: one if it is past the loop test of the current turn, none
    otherwise. *)
Definition pending_publication (st : system) : nat :=
  match sys_reader st with
  | R_copied _ _ | R_locked _ _ | R_sample_stored _ | R_average_stored => 1
  | R_top | R_version_bumped => 0
  end.

(** *** Notions used to state further properties *)

(** A run that closes the socket once, as its last action. *)
Definition closes_last (l : list action) : Prop :=
  exists pre, l = pre ++ [Act_close] /\ closes pre = 0 /\ releases pre = 0.

(** The header [json_header_format] prints for a given length. *)
Definition json_header (content_length : Z) : string :=
  cstr "HTTP/1.1 200 OK\r\nContent-Type: application/json\r\nContent-Length: "
  +:+ pretty content_length +:+ cstr "\r\nConnection: close\r\n\r\n".


(** The owner of the mutex is the one thread inside a critical section. *)
Definition lock_inv (st : system) : Prop :=
  (reader_in_critical (sys_reader st) = true <-> sys_mutex st = Some T_reader) /\
  (forall j, sys_mutex st = Some (T_observer j) ->
             is_Some (sys_observers st !! j)) /\
  (forall i o, sys_observers st !! i = Some o ->
     (observer_in_critical (pc o) = true <-> sys_mutex st = Some (T_observer i))).

(** ** Invariants used in the proofs *)

(** What the segment looks like after the writes [ws] on a zeroed segment:
    slot [i mod BUFFER_SIZE] holds write number [i] for the last
    [BUFFER_SIZE] writes. *)
Definition ring_inv (ws : list mpu6050_sample_float_t) (sd : shared_data_t) : Prop :=
  length (buffer sd) = 16%nat /\
  write_index sd = Z.of_nat (length ws) mod 16 /\
  count sd = Z.min (Z.of_nat (length ws)) 16 /\
  forall i : nat, (i < length ws)%nat -> (length ws <= i + 16)%nat ->
    buffer sd !! (i mod 16)%nat = ws !! i.

(** The latest publication, or the initial contents of the cache. *)
Definition committed (st : system) : publication :=
  default (cache_triple g_cached_data_init) (last (sys_log st)).

(** Where the reader thread stands with respect to the mutex: outside its
    critical section the cache holds the latest publication. *)
Definition reader_inv (st : system) : Prop :=
  match sys_reader st with
  | R_top | R_copied _ _ =>
      sys_mutex st <> Some T_reader /\
      cache_triple (sys_cache st) = committed st
  | R_locked _ _ | R_version_bumped =>
      sys_mutex st = Some T_reader /\
      cache_triple (sys_cache st) = committed st
  | R_sample_stored _ | R_average_stored =>
      sys_mutex st = Some T_reader
  end.

(** What observer [i] holds at each of its program points. *)
Definition observer_inv (st : system) (i : nat) (o : observer) : Prop :=
  let c := sys_cache st in
  let me := Some (T_observer i) in
  0 <= last_version o <= cache_version c /\
  match pc o with
  | O_idle | W_wait => sys_mutex st <> me
  | G_returned s a =>
      sys_mutex st <> me /\ exists v, published st (v, s, a)
  | W_returned v s a =>
      sys_mutex st <> me /\ published st (v, s, a) /\
      last_version o <= v <= cache_version c
  | G_locked | W_test | W_after_loop => sys_mutex st = me
  | G_sample s => sys_mutex st = me /\ s = cache_current_sample c
  | G_average s a =>
      sys_mutex st = me /\ s = cache_current_sample c /\ a = cache_average c
  | W_version v => sys_mutex st = me /\ v = cache_version c
  | W_sample v s =>
      sys_mutex st = me /\ v = cache_version c /\ s = cache_current_sample c
  | W_average v s a => sys_mutex st = me /\ (v, s, a) = cache_triple c
  end.

Definition system_inv (st : system) : Prop :=
  cache_version (sys_cache st) = Z.of_nat (length (sys_log st)) /\
  (forall k p, sys_log st !! k = Some p -> p.1.1 = Z.of_nat k + 1) /\
  reader_inv st /\
  (forall j, sys_mutex st = Some (T_observer j) ->
             is_Some (sys_observers st !! j)) /\
  (forall i o, sys_observers st !! i = Some o -> observer_inv st i o).

(** The connection counter counts the live handler threads and the slot
    under reservation, and stays within the limit. *)
Definition admission_inv (K : Z) (st : server) : Prop :=
  g_active_connections st = Z.of_nat (length (handlers st)) + reserved st /\
  g_active_connections st <= K /\
  match acceptor st with
  | Acc_loaded _ a => g_active_connections st <= a
  | _ => True
  end.

(** * Theorems *)

Ltac mod_lia := zify; Z.to_euclidean_division_equations; lia.

#[local] Arguments Nat.modulo : simpl never.
#[local] Arguments Nat.div : simpl never.
#[local] Arguments Z.modulo : simpl never.
#[local] Arguments Z.div : simpl never.
#[local] Arguments Z.pow : simpl never.

(** ** The ring buffer of the producer *)

Lemma ring_inv_zero : ring_inv [] shared_data_zero.
Proof.
  repeat split; simpl; intros; lia.
Qed.

Lemma ring_inv_write ws sd s :
  ring_inv ws sd -> ring_inv (ws ++ [s]) (producer_write sd s).
Proof.
  intros (Hlen & Hwi & Hcnt & Hslots).
  unfold ring_inv, producer_write; simpl.
  rewrite length_insert, length_app, Hwi, Hcnt; simpl.
  unfold wrap64, SIZE_MOD, BUFFER_SIZE.
  change (2 ^ 64) with 18446744073709551616.
  split; [assumption|]. split; [mod_lia|]. split.
  - destruct (Z.ltb_spec (Z.min (Z.of_nat (length ws)) 16) 16); mod_lia.
  - intros i Hi Hwin.
    replace (Z.to_nat (Z.of_nat (length ws) mod 16)) with (length ws mod 16)%nat
      by mod_lia.
    destruct (decide (i = length ws)) as [->|Hne].
    + rewrite list_lookup_insert_eq by mod_lia.
      rewrite lookup_app_r by lia. now rewrite Nat.sub_diag.
    + rewrite list_lookup_insert_ne by mod_lia.
      rewrite lookup_app_l by lia. apply Hslots; lia.
Qed.

Lemma producer_writes_snoc sd ws s :
  producer_writes sd (ws ++ [s]) = producer_write (producer_writes sd ws) s.
Proof. unfold producer_writes. now rewrite foldl_app. Qed.

Lemma ring_inv_writes ws : ring_inv ws (producer_writes shared_data_zero ws).
Proof.
  induction ws as [|s ws IH] using rev_ind.
  - apply ring_inv_zero.
  - rewrite producer_writes_snoc. now apply ring_inv_write.
Qed.

Lemma valid_entries_ring ws sd :
  ring_inv ws sd ->
  valid_entries sd = most_recent (Nat.min (length ws) 16) ws.
Proof.
  intros (Hlen & Hwi & Hcnt & Hslots).
  unfold valid_entries, most_recent, oldest_index, BUFFER_SIZE.
  rewrite Hwi, Hcnt.
  apply list_eq; intros k.
  rewrite list_lookup_fmap, lookup_drop.
  destruct (decide (k < Nat.min (length ws) 16)%nat) as [Hk|Hk].
  - rewrite lookup_seq_lt by lia. simpl.
    set (i := (length ws - Nat.min (length ws) 16 + k)%nat).
    replace (Z.to_nat _) with (i mod 16)%nat by (subst i; mod_lia).
    unfold buffer_at. rewrite Hslots by (subst i; lia).
    destruct (lookup_lt_is_Some_2 ws i) as [x Hx]; [subst i; lia|].
    now rewrite Hx.
  - rewrite lookup_seq_ge by lia. simpl.
    symmetry. apply lookup_ge_None. lia.
Qed.

(** C1: after N writes on the zeroed segment the count is min(N, BUFFER_SIZE)
    and the valid entries, read from the oldest slot, are exactly the
    min(N, BUFFER_SIZE) most recent samples in arrival order; in
    particular, once s1 .. s16 have filled the ring, writing s17 evicts s1. *)
Theorem ring_buffer_keeps_most_recent (ws : list mpu6050_sample_float_t) :
  let sd := producer_writes shared_data_zero ws in
  let n := Nat.min (length ws) (Z.to_nat BUFFER_SIZE) in
  count sd = Z.of_nat n /\
  valid_entries sd = most_recent n ws /\
  length (valid_entries sd) = n /\
  (forall s1 rest s,
      ws = s1 :: rest ++ [s] -> length (s1 :: rest) = Z.to_nat BUFFER_SIZE ->
      valid_entries sd = rest ++ [s]).
Proof.
  cbv zeta. change (Z.to_nat BUFFER_SIZE) with 16%nat.
  pose proof (ring_inv_writes ws) as Hinv.
  pose proof (valid_entries_ring _ _ Hinv) as Hval.
  destruct Hinv as (_ & _ & Hcnt & _).
  split; [rewrite Hcnt; lia|]. split; [exact Hval|]. split.
  - rewrite Hval. unfold most_recent. rewrite length_drop. lia.
  - intros s1 rest s -> Hlen. rewrite Hval. unfold most_recent.
    cbn [length] in *. rewrite length_app in *. cbn [length] in *.
    replace (S (length rest + 1) - Nat.min (S (length rest + 1)) 16)%nat
      with 1%nat by lia.
    reflexivity.
Qed.

Lemma ring_buffer_keeps_most_recent_witness :
  length (reading 1 :: readings 2 15) = Z.to_nat BUFFER_SIZE /\
  valid_entries (producer_writes shared_data_zero (readings 1 17))
  = readings 2 15 ++ [reading 17].
Proof.
  split; [reflexivity|].
  exact (proj2 (proj2 (proj2 (ring_buffer_keeps_most_recent (readings 1 17))))
           (reading 1) (readings 2 15) (reading 17) eq_refl eq_refl).
Defined.

(** ** The average *)





Example average_of_three_readings :
  average (producer_writes shared_data_zero (readings 1 3)) = reading 2.
Proof. vm_compute. reflexivity. Qed.

Example average_after_wrap :
  let sd := producer_writes shared_data_zero (readings 1 20) in
  write_index sd = 4 /\ count sd = 16 /\
  ax (average sd) = f_div (f_of_Z 200) (f_of_Z 16).
Proof. vm_compute. repeat split. Qed.


(** ** The cache, its writer and its readers *)

Lemma wrap64_small x : 0 <= x < SIZE_MOD -> wrap64 x = x.
Proof. intros. unfold wrap64. now apply Z.mod_small. Qed.

Lemma committed_published st : published st (committed st).
Proof.
  unfold published, committed.
  destruct (last (sys_log st)) as [p|] eqn:E; simpl; [right|left; reflexivity].
  apply last_Some in E as [l' ->]. set_solver.
Qed.

Lemma system_inv_init shm : system_inv (system_init shm).
Proof.
  unfold system_inv, system_init; simpl.
  split; [reflexivity|]. split; [intros k p H; rewrite lookup_nil in H; discriminate|].
  split; [split; [discriminate|reflexivity]|].
  split; [discriminate|]. intros i o H. rewrite lookup_nil in H. discriminate.
Qed.

Lemma log_length_step st e :
  (length (sys_log st) <= length (sys_log (system_step st e)))%nat.
Proof.
  destruct e; simpl; try lia.
  - unfold reader_step. destruct (sys_reader st); simpl; try lia.
    + destruct (sys_running st); [|lia]. destruct (sys_shm st); simpl; lia.
    + destruct (sys_mutex st); simpl; lia.
    + rewrite length_app. simpl. lia.
  - unfold observer_step. destruct (sys_observers st !! i) as [o|]; [|lia].
    destruct (pc o); simpl; try lia.
    + destruct (sys_mutex st); simpl; lia.
    + destruct (_ && _); simpl; lia.
    + destruct (sys_mutex st); simpl; lia.
Qed.

Lemma published_mono st st' p :
  (forall q, q ∈ sys_log st -> q ∈ sys_log st') ->
  published st p -> published st' p.
Proof. intros Hsub [H|H]; [now left|right; auto]. Qed.

Lemma observer_inv_frame st st' j o :
  observer_inv st j o ->
  (sys_mutex st = Some (T_observer j) <-> sys_mutex st' = Some (T_observer j)) ->
  (sys_mutex st = Some (T_observer j) -> sys_cache st' = sys_cache st) ->
  cache_version (sys_cache st) <= cache_version (sys_cache st') ->
  (forall q, q ∈ sys_log st -> q ∈ sys_log st') ->
  observer_inv st' j o.
Proof.
  unfold observer_inv. cbv zeta. intros [Hlast Hpc] Hmx Hc Hv Hlog.
  split; [lia|].
  destruct (decide (sys_mutex st = Some (T_observer j))) as [Hm|Hm].
  - rewrite (Hc Hm). pose proof (proj1 Hmx Hm) as Hm'.
    destruct (pc o); try tauto; try congruence.
  - assert (Hm' : sys_mutex st' <> Some (T_observer j)) by tauto.
    destruct (pc o); try tauto.
    + destruct Hpc as [_ [v Hp]]. split; [assumption|].
      exists v. eapply published_mono; eauto.
    + destruct Hpc as (_ & Hp & Hb). split; [assumption|].
      split; [eapply published_mono; eauto|lia].
Qed.

Lemma inv_reader_step st :
  system_inv st ->
  Z.of_nat (length (sys_log (reader_step st))) < SIZE_MOD ->
  system_inv (reader_step st).
Proof.
  intros Hinv Hbound. pose proof Hinv as (Hver & Hlog & Hrd & Hown & Hobs).
  unfold reader_step in *. unfold reader_inv in Hrd.
  destruct (sys_reader st) as [|s a|s a|a| |] eqn:Hpc.
  - (* R_top *)
    destruct (sys_running st); [|exact Hinv].
    destruct (sys_shm st) as [sd|]; [|exact Hinv].
    simpl. unfold system_inv; simpl. split; [assumption|]. split; [assumption|].
    split; [exact Hrd|]. split; [assumption|].
    intros i o Hi. eapply observer_inv_frame; eauto; simpl; try tauto; lia.
  - (* R_copied *)
    destruct (sys_mutex st) as [t|] eqn:Hm.
    + exact Hinv.
    + unfold system_inv; simpl. split; [assumption|]. split; [assumption|].
      split; [unfold reader_inv; simpl; tauto|]. split; [discriminate|].
      intros i o Hi. eapply observer_inv_frame; eauto; simpl; try lia; try tauto.
      rewrite Hm. split; discriminate.
  - (* R_locked *)
    destruct Hrd as [Hm Hc].
    unfold system_inv; simpl. split; [assumption|]. split; [assumption|].
    split; [unfold reader_inv; simpl; tauto|]. split; [assumption|].
    intros i o Hi. eapply observer_inv_frame; eauto; simpl; try lia; try tauto.
    rewrite Hm. discriminate.
  - (* R_sample_stored *)
    unfold system_inv; simpl. split; [assumption|]. split; [assumption|].
    split; [unfold reader_inv; simpl; tauto|]. split; [assumption|].
    intros i o Hi. eapply observer_inv_frame; eauto; simpl; try lia; try tauto.
    rewrite Hrd. discriminate.
  - (* R_average_stored *)
    simpl in Hbound. rewrite length_app in Hbound. simpl in Hbound.
    assert (Hv' : wrap64 (cache_version (sys_cache st) + 1)
                  = Z.of_nat (length (sys_log st)) + 1).
    { rewrite Hver. apply wrap64_small. unfold SIZE_MOD in *. lia. }
    unfold system_inv; simpl. rewrite Hv'.
    split; [rewrite length_app; cbn [length]; lia|]. split.
    { intros k p Hk. destruct (decide (k < length (sys_log st))%nat).
      - rewrite lookup_app_l in Hk by assumption. eauto.
      - rewrite lookup_app_r in Hk by lia.
        destruct (k - length (sys_log st))%nat eqn:Ek; [|destruct n0; discriminate].
        simpl in Hk. injection Hk as <-. unfold cache_triple; simpl. lia. }
    split.
    { unfold reader_inv; simpl. split; [assumption|].
      unfold committed; simpl. rewrite last_snoc. simpl.
      unfold cache_triple, bump_version; simpl. now rewrite Hv'. }
    split; [assumption|].
    intros i o Hi. eapply observer_inv_frame; eauto; simpl; try lia; try tauto.
    + rewrite Hrd. discriminate.
    + intros q Hq. set_solver.
  - (* R_version_bumped *)
    destruct Hrd as [Hm Hc].
    unfold system_inv; simpl. split; [assumption|]. split; [assumption|].
    split; [unfold reader_inv; simpl; split; [discriminate|assumption]|].
    split; [discriminate|].
    intros i o Hi. eapply observer_inv_frame; eauto; simpl; try lia; try tauto.
    rewrite Hm. split; discriminate.
Qed.

Lemma reader_inv_mutex st m' c r log :
  reader_inv (mk_system (sys_shm st) c (sys_mutex st) (sys_running st) r (sys_observers st) log) ->
  (m' = sys_mutex st \/
   (sys_mutex st <> Some T_reader /\ m' <> Some T_reader)) ->
  forall shm run obs,
  reader_inv (mk_system shm c m' run r obs log).
Proof.
  unfold reader_inv, committed; simpl. intros H [->|[H1 H2]] shm run obs; [exact H|].
  destruct r; tauto.
Qed.

Lemma inv_set_observer st m' i o o' :
  system_inv st ->
  sys_observers st !! i = Some o ->
  (m' = sys_mutex st \/
   (sys_mutex st = None /\ m' = Some (T_observer i)) \/
   (sys_mutex st = Some (T_observer i) /\ m' = None)) ->
  observer_inv (set_observer st m' i o') i o' ->
  system_inv (set_observer st m' i o').
Proof.
  intros (Hver & Hlog & Hrd & Hown & Hobs) Hi Hm Hnew.
  assert (Hlt : (i < length (sys_observers st))%nat)
    by (apply lookup_lt_is_Some; eauto).
  unfold system_inv; simpl. split; [assumption|]. split; [assumption|]. split.
  { destruct st; simpl in *. eapply reader_inv_mutex; [exact Hrd|]. simpl.
    destruct Hm as [->|[[-> ->]|[-> ->]]]; [now left|right..]; split; discriminate. }
  split.
  { intros j Hj. apply lookup_lt_is_Some. rewrite length_insert.
    destruct Hm as [->|[[_ ->]|[_ ->]]].
    - apply lookup_lt_is_Some. auto.
    - injection Hj as <-. assumption.
    - discriminate. }
  intros j oj Hj. destruct (decide (i = j)) as [<-|Hne].
  - rewrite list_lookup_insert_eq in Hj by assumption. injection Hj as <-. exact Hnew.
  - rewrite list_lookup_insert_ne in Hj by assumption.
    eapply observer_inv_frame; [eauto|..]; simpl; try lia; try tauto.
    destruct Hm as [->|[[-> ->]|[-> ->]]]; [tauto|split; congruence..].
Qed.

Lemma cache_committed_when_observer_holds st i :
  system_inv st -> sys_mutex st = Some (T_observer i) ->
  cache_triple (sys_cache st) = committed st.
Proof.
  intros (_ & _ & Hrd & _) Hm. unfold reader_inv in Hrd. rewrite Hm in Hrd.
  destruct (sys_reader st); try tauto; try discriminate;
    destruct Hrd; discriminate.
Qed.

Lemma inv_observer_step i choice st :
  system_inv st -> system_inv (observer_step i choice st).
Proof.
  intros Hinv. pose proof Hinv as (Hver & Hlog & Hrd & Hown & Hobs).
  unfold observer_step.
  destruct (sys_observers st !! i) as [o|] eqn:Hi; [|exact Hinv].
  pose proof (Hobs i o Hi) as Ho. unfold observer_inv in Ho. cbv zeta in Ho.
  destruct Ho as [Hlast Ho].
  destruct (pc o) eqn:Hpc.
  - (* O_idle *)
    destruct (sys_mutex st) eqn:Hm; [exact Hinv|].
    eapply inv_set_observer; eauto.
    unfold observer_inv; simpl. split; [assumption|]. now destruct choice.
  - (* G_locked *)
    eapply inv_set_observer; eauto. unfold observer_inv; simpl. tauto.
  - (* G_sample *)
    eapply inv_set_observer; eauto. unfold observer_inv; simpl. tauto.
  - (* G_average *)
    destruct Ho as (Hm & -> & ->).
    eapply inv_set_observer; eauto. unfold observer_inv; simpl.
    split; [assumption|]. split; [discriminate|].
    exists (cache_version (sys_cache st)).
    pose proof (cache_committed_when_observer_holds _ _ Hinv Hm) as Hc.
    unfold cache_triple in Hc. rewrite Hc.
    eapply published_mono; [|apply committed_published]. auto.
  - (* G_returned *)
    destruct Ho as [Hm _].
    eapply inv_set_observer; eauto. unfold observer_inv; simpl. tauto.
  - (* W_test *)
    destruct (_ && _).
    + eapply inv_set_observer; eauto. unfold observer_inv; simpl.
      split; [assumption|discriminate].
    + eapply inv_set_observer; eauto. unfold observer_inv; simpl. tauto.
  - (* W_wait *)
    destruct (sys_mutex st) eqn:Hm; [exact Hinv|].
    eapply inv_set_observer; eauto.
    unfold observer_inv; simpl. split; [assumption|]. now destruct choice.
  - (* W_after_loop *)
    eapply inv_set_observer; eauto. unfold observer_inv; simpl. tauto.
  - (* W_version *)
    eapply inv_set_observer; eauto. unfold observer_inv; simpl. tauto.
  - (* W_sample *)
    destruct Ho as (Hm & -> & ->).
    eapply inv_set_observer; eauto. unfold observer_inv; simpl. tauto.
  - (* W_average *)
    destruct Ho as (Hm & Heq).
    eapply inv_set_observer; eauto. unfold observer_inv; simpl.
    split; [assumption|]. split; [discriminate|].
    pose proof (cache_committed_when_observer_holds _ _ Hinv Hm) as Hc.
    rewrite Heq, Hc. split.
    + eapply published_mono; [|apply committed_published]. auto.
    + unfold cache_triple in Heq. injection Heq as -> _ _. lia.
  - (* W_returned *)
    destruct Ho as (Hm & Hp & Hb).
    eapply inv_set_observer; eauto. unfold observer_inv; simpl.
    split; [lia|assumption].
Qed.

Lemma system_inv_step st e :
  system_inv st ->
  Z.of_nat (length (sys_log (system_step st e))) < SIZE_MOD ->
  system_inv (system_step st e).
Proof.
  intros Hinv Hbound. destruct e as [s| | | |i choice].
  - destruct Hinv as (Hver & Hlog & Hrd & Hown & Hobs).
    unfold system_inv; simpl. split; [assumption|]. split; [assumption|].
    split; [destruct st; eapply reader_inv_mutex; [exact Hrd|now left]|].
    split; [assumption|]. intros i o Hi.
    eapply observer_inv_frame; [eauto|..]; simpl; try lia; tauto.
  - destruct Hinv as (Hver & Hlog & Hrd & Hown & Hobs).
    unfold system_inv; simpl. split; [assumption|]. split; [assumption|].
    split; [destruct st; eapply reader_inv_mutex; [exact Hrd|now left]|].
    split; [assumption|]. intros i o Hi.
    eapply observer_inv_frame; [eauto|..]; simpl; try lia; tauto.
  - destruct Hinv as (Hver & Hlog & Hrd & Hown & Hobs).
    unfold system_inv; simpl. split; [assumption|]. split; [assumption|].
    split; [destruct st; eapply reader_inv_mutex; [exact Hrd|now left]|].
    split.
    { intros j Hj. apply lookup_lt_is_Some. rewrite length_app.
      apply Hown, lookup_lt_is_Some in Hj. lia. }
    intros i o Hi.
    destruct (decide (i < length (sys_observers st))%nat) as [Hlt|Hge].
    + rewrite lookup_app_l in Hi by assumption.
      eapply observer_inv_frame; [eauto|..]; simpl; try lia; tauto.
    + rewrite lookup_app_r in Hi by lia.
      destruct (i - length (sys_observers st))%nat eqn:E;
        [|destruct n; discriminate].
      injection Hi as <-. assert (i = length (sys_observers st)) as -> by lia.
      unfold observer_inv; simpl. split; [lia|].
      intros Hm. apply Hown, lookup_lt_is_Some in Hm. lia.
  - now apply inv_reader_step.
  - now apply inv_observer_step.
Qed.

Lemma system_run_snoc st schedule e :
  system_run st (schedule ++ [e]) = system_step (system_run st schedule) e.
Proof. unfold system_run. now rewrite foldl_app. Qed.

Lemma system_inv_run shm schedule :
  Z.of_nat (length (sys_log (system_run (system_init shm) schedule))) < SIZE_MOD ->
  system_inv (system_run (system_init shm) schedule).
Proof.
  induction schedule as [|e schedule IH] using rev_ind; intros Hbound.
  - apply system_inv_init.
  - rewrite system_run_snoc in *. apply system_inv_step; [|assumption].
    apply IH. pose proof (log_length_step (system_run (system_init shm) schedule) e).
    lia.
Qed.

Example demo_schedule_result :
  let st := system_run (system_init (Some demo_segment)) demo_schedule in
  sys_observers st !! 0%nat
  = Some (mk_observer 0 (W_returned 1 sample_zero (reading 16))) /\
  sys_log st = [(1, sample_zero, reading 16)] /\
  sys_mutex st = None.
Proof. vm_compute. repeat split. Qed.

(** C4: as long as the 64-bit counter has not wrapped, the versions made
    visible by the reader thread are 1, 2, 3, ... in publication order, hence
    strictly increasing; whatever [get_cached_data] returns is a pair that
    was published as a whole; and [wait_for_new_data] returns either its
    argument [last_version] or a larger version, in both cases with the
    sample and the average that were published under the returned version. *)
Theorem cache_versions_and_pairs_consistent
    (shm : option shared_data_t) (schedule : list event) :
  let st := system_run (system_init shm) schedule in
  Z.of_nat (length (sys_log st)) < SIZE_MOD ->
  (forall k p, sys_log st !! k = Some p -> p.1.1 = Z.of_nat k + 1) /\
  (forall j k p q, (j < k)%nat ->
     sys_log st !! j = Some p -> sys_log st !! k = Some q -> p.1.1 < q.1.1) /\
  (forall i o, sys_observers st !! i = Some o ->
     match pc o with
     | G_returned s a => exists v, published st (v, s, a)
     | W_returned v s a =>
         (v = last_version o \/ last_version o < v) /\ published st (v, s, a)
     | _ => True
     end).
Proof.
  cbv zeta. intros Hbound.
  destruct (system_inv_run shm schedule Hbound) as (_ & Hlog & _ & _ & Hobs).
  split; [exact Hlog|]. split.
  - intros j k p q Hjk Hp Hq. rewrite (Hlog _ _ Hp), (Hlog _ _ Hq). lia.
  - intros i o Hi. specialize (Hobs i o Hi). unfold observer_inv in Hobs.
    destruct Hobs as [_ Hpc]. destruct (pc o); try exact I.
    + tauto.
    + destruct Hpc as (_ & Hp & Hb). split; [lia|exact Hp].
Qed.

Lemma cache_versions_and_pairs_consistent_witness :
  let st := system_run (system_init (Some demo_segment)) demo_schedule in
  Z.of_nat (length (sys_log st)) < SIZE_MOD /\
  ((1 = 0 \/ 0 < 1) /\ published st (1, sample_zero, reading 16)).
Proof.
  cbv zeta.
  assert (Hb : Z.of_nat (length (sys_log (system_run (system_init (Some demo_segment))
                                                     demo_schedule))) < SIZE_MOD)
    by (vm_compute; reflexivity).
  split; [exact Hb|].
  exact (proj2 (proj2 (cache_versions_and_pairs_consistent
                         (Some demo_segment) demo_schedule Hb))
           0%nat (mk_observer 0 (W_returned 1 sample_zero (reading 16)))
           (proj1 demo_schedule_result)).
Defined.

Example cstr_escapes : String.length (cstr "a`\r\n\\n") = 6%nat.
Proof. reflexivity. Qed.

Example printf_f6_examples :
  printf_f6 f_zero = "0.000000" /\
  printf_f6 (f_of_Z 1) = "1.000000" /\
  printf_f6 (f_div (f_of_Z 1) (f_of_Z 3)) = "0.333333" /\
  printf_f6 (f_div (f_of_Z 2) (f_of_Z 3)) = "0.666667" /\
  printf_f6 (f_div (f_of_Z (-5)) (f_of_Z 2000000)) = "-0.000002" /\
  printf_f6 (f_div (f_of_Z 3) (f_of_Z 2000000)) = "0.000002" /\
  printf_f6 (f_of_Z 16777217) = "16777216.000000".
Proof. vm_compute. repeat split. Qed.

(** ** Requests and responses *)

Example get_json_initial :
  conn_handler (plain_env (cstr "GET /json HTTP/1.1\r\nHost: x\r\n\r\n")
                          g_cached_data_init 1700000000)
  = [Act_send (cstr ("HTTP/1.1 200 OK\r\nContent-Type: application/json\r\n" +:+
                     "Content-Length: 261\r\nConnection: close\r\n\r\n"));
     Act_send (cstr ("{`status`:`ok`,`sample`:{`ax`:0.000000,`ay`:0.000000," +:+
                     "`az`:0.000000,`gx`:0.000000,`gy`:0.000000,`gz`:0.000000," +:+
                     "`temp`:0.000000},`average`:{`ax`:0.000000,`ay`:0.000000," +:+
                     "`az`:0.000000,`gx`:0.000000,`gy`:0.000000,`gz`:0.000000," +:+
                     "`temp`:0.000000},`timestamp`:1700000000}"));
     Act_close; Act_release_slot].
Proof. vm_compute. reflexivity. Qed.

Example get_root_and_unknown :
  (exists body,
     conn_handler (plain_env (cstr "GET / HTTP/1.1\r\n\r\n") g_cached_data_init 0)
     = [Act_send (cstr ("HTTP/1.1 200 OK\r\nContent-Type: text/html; charset=utf-8\r\n" +:+
                        "Cache-Control: no-store\r\nContent-Length: 361\r\n" +:+
                        "Connection: close\r\n\r\n"));
        Act_send body; Act_close; Act_release_slot]
     /\ String.length body = 361%nat) /\
  (exists body,
     conn_handler (plain_env (cstr "GET /nowhere HTTP/1.1\r\n\r\n") g_cached_data_init 0)
     = [Act_send (cstr ("HTTP/1.1 404 Not Found\r\n" +:+
                        "Content-Type: text/html; charset=utf-8\r\n" +:+
                        "Content-Length: 229\r\nConnection: close\r\n\r\n"));
        Act_send body; Act_close; Act_release_slot]
     /\ String.length body = 229%nat).
Proof. split; eexists; vm_compute; split; reflexivity. Qed.

Example tokens_of_request_line :
  whitespace_tokens (first_line (cstr "POST /json HTTP/1.1\r\nHost: x\r\n\r\n"))
  = ["POST"; "/json"; "HTTP/1.1"].
Proof. reflexivity. Qed.

Lemma append_cons c s t : String c s +:+ t = String c (s +:+ t).
Proof. reflexivity. Qed.

Lemma append_nil_l t : EmptyString +:+ t = t.
Proof. reflexivity. Qed.

Lemma string_take_all n s : (String.length s <= n)%nat -> string_take n s = s.
Proof.
  revert n. induction s as [|c s IH]; intros [|n] Hlen; simpl in *;
    try reflexivity; try lia.
  f_equal. apply IH. lia.
Qed.

Lemma skip_space_blank b s : blank_chars b = true -> skip_space (b +:+ s) = skip_space s.
Proof.
  induction b as [|c b IH]; intros Hb; [reflexivity|].
  simpl in Hb. apply andb_true_iff in Hb as [Hc Hb].
  rewrite append_cons. simpl. rewrite Hc. auto.
Qed.

Lemma skip_space_token t s : is_token t = true -> skip_space (t +:+ s) = t +:+ s.
Proof.
  destruct t as [|c t]; [discriminate|]. simpl. intros Ht.
  apply andb_true_iff in Ht as [Hc _]. apply negb_true_iff, orb_false_iff in Hc as [Hc _].
  rewrite append_cons. simpl. now rewrite Hc.
Qed.

Lemma scan_word_token w t s :
  token_chars t = true ->
  ((String.length t <= w)%nat -> starts_delimiter s) ->
  scan_word w (t +:+ s) = (string_take w t, string_drop w t +:+ s).
Proof.
  revert w. induction t as [|c t IH]; intros w Ht Hs.
  - rewrite append_nil_l. destruct w, s; simpl; try reflexivity.
    simpl in Hs. rewrite Hs by lia. reflexivity.
  - simpl in Ht. apply andb_true_iff in Ht as [Hc Ht].
    apply negb_true_iff in Hc.
    destruct w as [|w]; [reflexivity|].
    rewrite append_cons. simpl. rewrite Hc.
    rewrite IH; [reflexivity|assumption|]. intros Hl. apply Hs. simpl. lia.
Qed.

Lemma blank_starts_delimiter b s : is_blank b = true -> starts_delimiter (b +:+ s).
Proof.
  destruct b as [|c b]; [discriminate|]. simpl. intros Hb.
  apply andb_true_iff in Hb as [Hc _]. now rewrite Hc.
Qed.

Lemma is_blank_chars b : is_blank b = true -> blank_chars b = true.
Proof. now destruct b. Qed.

Lemma is_token_chars t : is_token t = true -> token_chars t = true.
Proof. now destruct t. Qed.

Lemma scan_s_token w t s :
  is_token t = true ->
  ((String.length t <= S w)%nat -> starts_delimiter s) ->
  scan_s (S w) (t +:+ s) = Some (string_take (S w) t, string_drop (S w) t +:+ s).
Proof.
  intros Ht Hs. unfold scan_s. rewrite skip_space_token by assumption.
  rewrite scan_word_token by auto using is_token_chars.
  destruct t as [|c t]; [discriminate|]. reflexivity.
Qed.


Lemma scan_s_blank w b s : blank_chars b = true -> scan_s w (b +:+ s) = scan_s w s.
Proof. intros Hb. unfold scan_s. now rewrite skip_space_blank. Qed.

Lemma string_drop_all n s : (String.length s <= n)%nat -> string_drop n s = EmptyString.
Proof.
  revert n. induction s as [|c s IH]; intros [|n] Hlen; simpl in *;
    try reflexivity; try lia.
  apply IH. lia.
Qed.


Lemma length_string_take n s :
  String.length (string_take n s) = Nat.min n (String.length s).
Proof.
  revert n. induction s as [|c s IH]; intros [|n]; simpl; try reflexivity.
  now rewrite IH.
Qed.










(** ** The reader thread and the cache *)

(** Six uninterrupted statements of the reader thread are one iteration. *)
Lemma reader_steps_iteration st :
  sys_reader st = R_top -> sys_running st = true -> sys_mutex st = None ->
  let st' := system_run st (replicate 6 Reader_steps) in
  sys_cache st' = data_reader_iteration (sys_shm st) (sys_cache st) /\
  sys_reader st' = R_top /\ sys_mutex st' = None.
Proof.
  intros Hpc Hrun Hm. destruct st as [shm c mx run r obs log].
  simpl in *. subst. destruct shm as [sd|]; repeat split.
Qed.

(** C3: the code publishes slot [BUFFER_SIZE - 1] of the ring as the
    average.  After three producer cycles the segment's average is the mean
    of the three readings while the reader thread caches the still empty last
    slot. *)
Theorem reader_caches_last_slot_not_average :
  let sd := producer_writes shared_data_zero (readings 1 3) in
  let c := data_reader_iteration (Some sd) g_cached_data_init in
  average sd = reading 2 /\
  cache_average c = sample_zero /\
  cache_average c <> average sd /\
  (forall (sd' : shared_data_t) (c' : cached_data_t),
     cache_average (data_reader_iteration (Some sd') c')
     = buffer_at (buffer sd') (Z.to_nat (BUFFER_SIZE - 1))).
Proof.
  cbv zeta. split; [vm_compute; reflexivity|]. split; [vm_compute; reflexivity|].
  split; [vm_compute; discriminate|]. reflexivity.
Qed.

(** C8: an iteration of the reader thread with the segment attached adds
    exactly one to the version (below the wrap-around of the 64-bit
    counter), whatever it copies: a second iteration over an unchanged
    segment publishes the same pair under the next version.  Without the
    segment the cache is left alone. *)
Theorem reader_iteration_bumps_version (sd : shared_data_t) (c : cached_data_t) :
  0 <= cache_version c < SIZE_MOD - 1 ->
  let c1 := data_reader_iteration (Some sd) c in
  cache_version c1 = cache_version c + 1 /\
  (get_cached_data c = shm_copy sd ->
   get_cached_data c1 = get_cached_data c /\ cache_version c1 <> cache_version c) /\
  (cache_version c1 < SIZE_MOD - 1 ->
   let c2 := data_reader_iteration (Some sd) c1 in
   get_cached_data c2 = get_cached_data c1 /\
   cache_version c2 = cache_version c1 + 1) /\
  data_reader_iteration None c = c.
Proof.
  intros Hv. cbv zeta. unfold data_reader_iteration, shm_copy, get_cached_data.
  cbn. rewrite wrap64_small by lia.
  split; [reflexivity|]. split.
  - intros [= -> ->]. split; [reflexivity|lia].
  - split; [|reflexivity]. intros Hv1. rewrite wrap64_small by lia. split; reflexivity.
Qed.

Lemma reader_iteration_bumps_version_witness :
  let sd := producer_writes shared_data_zero (readings 1 3) in
  let c1 := data_reader_iteration (Some sd) g_cached_data_init in
  let c2 := data_reader_iteration (Some sd) c1 in
  cache_version c1 = 1 /\ cache_version c2 = 2 /\
  get_cached_data c2 = get_cached_data c1.
Proof.
  cbv zeta.
  pose proof (reader_iteration_bumps_version
                (producer_writes shared_data_zero (readings 1 3))
                g_cached_data_init ltac:(vm_compute; split; [discriminate|reflexivity]))
    as (H1 & _ & H2 & _).
  cbv zeta in H2. rewrite H1 in H2.
  destruct (H2 ltac:(vm_compute; reflexivity)) as [Hp Hv].
  split; [exact H1|]. split; [exact Hv|exact Hp].
Defined.

(** Two publications of the same pair give two identical frames on the
    event stream. *)
Example event_stream_repeats_unchanged_pair :
  let sd := producer_writes shared_data_zero (readings 1 3) in
  let c1 := data_reader_iteration (Some sd) g_cached_data_init in
  let c2 := data_reader_iteration (Some sd) c1 in
  exists frame,
    sse_loop [Epoll_timeout c1 1700000000 1; Epoll_timeout c2 1700000000 1] 0
    = [Act_send frame; Act_send frame].
Proof. eexists. vm_compute. reflexivity. Qed.

(** C10: before the first publication the cache holds version 0 and two
    all-zero samples; [get_cached_data] returns them, and [GET /json] is
    answered with status 200 and a body whose fourteen readings are printed
    as 0.000000, exactly as if an all-zero pair had been published. *)
Theorem early_json_is_all_zero :
  cache_version g_cached_data_init = 0 /\
  get_cached_data g_cached_data_init = (sample_zero, sample_zero) /\
  conn_handler (plain_env (cstr "GET /json HTTP/1.1\r\n\r\n")
                          g_cached_data_init 1700000000)
  = [Act_send (cstr ("HTTP/1.1 200 OK\r\nContent-Type: application/json\r\n" +:+
                     "Content-Length: 261\r\nConnection: close\r\n\r\n"));
     Act_send (cstr ("{`status`:`ok`,`sample`:{`ax`:0.000000,`ay`:0.000000," +:+
                     "`az`:0.000000,`gx`:0.000000,`gy`:0.000000,`gz`:0.000000," +:+
                     "`temp`:0.000000},`average`:{`ax`:0.000000,`ay`:0.000000," +:+
                     "`az`:0.000000,`gx`:0.000000,`gy`:0.000000,`gz`:0.000000," +:+
                     "`temp`:0.000000},`timestamp`:1700000000}"));
     Act_close; Act_release_slot] /\
  (forall (request : string) (now v : Z),
     conn_handler (plain_env request g_cached_data_init now)
     = conn_handler (plain_env request (mk_cache sample_zero sample_zero v) now)).
Proof.
  split; [reflexivity|]. split; [reflexivity|]. split; [vm_compute; reflexivity|].
  intros request now v. unfold conn_handler, conn_handler_body, plain_env; cbn.
  destruct request as [|ch r]; [reflexivity|].
  destruct (sscanf_request _) as [[[? path] ?]|]; [|reflexivity].
  destruct (route_of_path path); reflexivity.
Qed.

(** ** Admission control *)

Lemma releases_app l1 l2 : releases (l1 ++ l2) = releases l1 + releases l2.
Proof.
  induction l1 as [|a l1 IH]; [reflexivity|].
  destruct a; cbn [app releases]; lia.
Qed.

Lemma releases_sse_loop its : forall v, releases (sse_loop its v) = 0.
Proof.
  induction its as [|it its IH]; intros v; [reflexivity|].
  destruct it as [| |seen now sent|events]; cbn [sse_loop].
  - apply IH.
  - reflexivity.
  - destruct (cache_version seen =? v); [apply IH|].
    destruct (get_cached_data seen) as [s a]. cbn [releases].
    destruct (sent <=? 0); [reflexivity|apply IH].
  - destruct (negb _); [reflexivity|apply IH].
Qed.

Lemma releases_send_response env h b : releases (send_response env h b) = 0.
Proof.
  unfold send_response.
  repeat match goal with
         | |- context [if ?c then _ else _] => destruct c
         end; reflexivity.
Qed.

Lemma releases_serve r env : releases (serve r env) = 0.
Proof.
  unfold serve. destruct (get_cached_data (env_cache env)) as [s a].
  destruct r; try apply releases_send_response.
  unfold serve_events. cbn [releases].
  destruct (_ <=? 0); [reflexivity|]. cbn [releases].
  destruct (_ <=? 0); [reflexivity|].
  destruct (negb (env_epoll_create env)); [reflexivity|].
  destruct (negb (env_epoll_ctl env)); [reflexivity|].
  rewrite releases_app, releases_sse_loop. reflexivity.
Qed.

Lemma releases_conn_handler env : releases (conn_handler env) = 1.
Proof.
  unfold conn_handler. rewrite releases_app.
  assert (releases (conn_handler_body env) = 0) as ->; [|reflexivity].
  unfold conn_handler_body.
  destruct (negb (env_arg env)); [reflexivity|].
  destruct (env_recv env) as [[|c r]|]; try reflexivity.
  destruct (sscanf_request _) as [[[? path] ?]|]; [|reflexivity].
  apply releases_serve.
Qed.

Lemma wrap_int_small x : INT_MIN <= x <= INT_MAX -> wrap_int x = x.
Proof.
  unfold wrap_int, INT_MIN, INT_MAX. intros H.
  change (2 ^ 31) with 2147483648 in *. change (2 ^ 32) with 4294967296.
  mod_lia.
Qed.

Lemma length_remove_first fd l :
  mem_fd fd l = true -> length l = S (length (remove_first fd l)).
Proof.
  induction l as [|x l IH]; [discriminate|]. simpl.
  destruct (x =? fd); [reflexivity|]. simpl. intros H. now rewrite <- IH.
Qed.

Lemma admission_inv_step K st e :
  0 <= K <= INT_MAX -> admission_inv K st -> admission_inv K (server_step K st e).
Proof.
  unfold INT_MAX. change (2 ^ 31) with 2147483648.
  intros HK (Hcnt & Hle & Hld). unfold admission_inv, reserved in *.
  destruct e as [fd|create_ok|fd env]; cbn [server_step].
  - destruct (acceptor st) eqn:Hpc; cbn; rewrite ?Hpc; auto.
  - unfold acceptor_step. destruct (acceptor st) as [|fd|fd a|fd] eqn:Hpc; cbn.
    + rewrite Hpc. auto.
    + repeat split; lia.
    + destruct (Z.ltb_spec 0 K); destruct (Z.leb_spec K a);
        destruct (Z.eqb_spec K 0); cbn;
        rewrite ?wrap_int_small
          by (unfold INT_MIN, INT_MAX; change (2 ^ 31) with 2147483648; lia);
        repeat split; lia.
    + destruct create_ok; cbn.
      * rewrite length_app. cbn. repeat split; lia.
      * rewrite wrap_int_small by (unfold INT_MIN, INT_MAX;
                                   change (2 ^ 31) with 2147483648; lia).
        repeat split; lia.
  - destruct (mem_fd fd (handlers st)) eqn:Hmem; [|auto].
    cbn. rewrite releases_conn_handler.
    apply length_remove_first in Hmem.
    assert (0 <= reserved st <= 1) by (unfold reserved; destruct (acceptor st); lia).
    unfold reserved in *.
    rewrite wrap_int_small by (unfold INT_MIN, INT_MAX;
                               change (2 ^ 31) with 2147483648;
                               destruct (acceptor st); lia).
    destruct (acceptor st); repeat split; lia.
Qed.

Lemma server_run_snoc K st schedule e :
  server_run K st (schedule ++ [e]) = server_step K (server_run K st schedule) e.
Proof. unfold server_run. now rewrite foldl_app. Qed.

Lemma server_run_app K st s1 s2 :
  server_run K st (s1 ++ s2) = server_run K (server_run K st s1) s2.
Proof. unfold server_run. now rewrite foldl_app. Qed.

Lemma admission_inv_run K schedule :
  0 <= K <= INT_MAX -> admission_inv K (server_run K server_init schedule).
Proof.
  intros HK. induction schedule as [|e schedule IH] using rev_ind.
  - unfold admission_inv; cbn. lia.
  - rewrite server_run_snoc. now apply admission_inv_step.
Qed.

Lemma refused_when_full K st fd b1 b2 :
  acceptor st = Acc_select ->
  K = 0 \/ (0 < K /\ K <= g_active_connections st) ->
  server_run K st [Connection_accepted fd; Acceptor_steps b1; Acceptor_steps b2]
  = mk_server (g_active_connections st) Acc_select (handlers st)
              (wire st ++ [(fd, Act_close)]).
Proof.
  intros Hpc HK. unfold server_run. cbn [foldl server_step]. rewrite Hpc.
  unfold acceptor_step. cbn.
  destruct HK as [->|[H0 HK]].
  - reflexivity.
  - destruct (Z.ltb_spec 0 K); [|lia].
    destruct (Z.leb_spec K (g_active_connections st)); [|lia]. reflexivity.
Qed.

Lemma reserved_before_spawn K st fd b1 b2 :
  acceptor st = Acc_select ->
  0 <= g_active_connections st < K -> K <= INT_MAX ->
  server_run K st [Connection_accepted fd; Acceptor_steps b1; Acceptor_steps b2]
  = mk_server (g_active_connections st + 1) (Acc_reserved fd) (handlers st) (wire st).
Proof.
  unfold INT_MAX. change (2 ^ 31) with 2147483648.
  intros Hpc Hc HK. unfold server_run. cbn [foldl server_step]. rewrite Hpc.
  unfold acceptor_step. cbn.
  destruct (Z.ltb_spec 0 K); [|lia].
  destruct (Z.leb_spec K (g_active_connections st)); [lia|].
  destruct (Z.eqb_spec K 0); [lia|]. cbn.
  rewrite wrap_int_small
    by (unfold INT_MIN, INT_MAX; change (2 ^ 31) with 2147483648; lia).
  reflexivity.
Qed.

Lemma admitted_when_room K st fd :
  acceptor st = Acc_select ->
  0 <= g_active_connections st < K -> K <= INT_MAX ->
  server_run K st (admit_all [fd])
  = mk_server (g_active_connections st + 1) Acc_select (handlers st ++ [fd]) (wire st).
Proof.
  intros Hpc Hc HK.
  change (admit_all [fd])
    with ([Connection_accepted fd; Acceptor_steps true; Acceptor_steps true]
            ++ [Acceptor_steps true]).
  rewrite server_run_app, reserved_before_spawn by assumption. reflexivity.
Qed.

Lemma slot_released_when_spawn_fails K st fd :
  acceptor st = Acc_select ->
  0 <= g_active_connections st < K -> K <= INT_MAX ->
  server_run K st [Connection_accepted fd; Acceptor_steps true;
                   Acceptor_steps true; Acceptor_steps false]
  = mk_server (g_active_connections st) Acc_select (handlers st)
              (wire st ++ [(fd, Act_close)]).
Proof.
  intros Hpc Hc HK.
  change [Connection_accepted fd; Acceptor_steps true; Acceptor_steps true;
          Acceptor_steps false]
    with ([Connection_accepted fd; Acceptor_steps true; Acceptor_steps true]
            ++ [Acceptor_steps false]).
  rewrite server_run_app, reserved_before_spawn by assumption.
  unfold server_run. cbn.
  rewrite wrap_int_small
    by (unfold INT_MIN, INT_MAX in *; change (2 ^ 31) with 2147483648 in *; lia).
  f_equal. lia.
Qed.

Lemma handler_exit_releases K st fd env :
  mem_fd fd (handlers st) = true ->
  1 <= g_active_connections st <= INT_MAX ->
  server_step K st (Handler_finishes fd env)
  = mk_server (g_active_connections st - 1) (acceptor st)
              (remove_first fd (handlers st))
              (wire st ++ map (fun a => (fd, a)) (conn_handler env)).
Proof.
  intros Hmem Hc. cbn [server_step]. rewrite Hmem, releases_conn_handler.
  rewrite wrap_int_small
    by (unfold INT_MIN, INT_MAX in *; change (2 ^ 31) with 2147483648 in *; lia).
  reflexivity.
Qed.

(** C5: under a limit K (an [int], K >= 0) the counter equals the number of
    live handler threads plus the slot being reserved and never exceeds K,
    so at most K handlers run (none when K = 0).  A connection that arrives
    when the counter is K, or when K = 0, is closed at once: nothing is sent
    and the counter does not move.  Below the limit the counter is
    incremented before the thread is created and decremented again if
    [pthread_create] fails; every run of [conn_handler] decrements it exactly
    once.  Hence when the server is full and one handler ends, the next
    connection is admitted and the one after it is refused. *)
Theorem admission_control (K : Z) (schedule : list server_event) :
  let st := server_run K server_init schedule in
  0 <= K <= INT_MAX ->
  g_active_connections st = Z.of_nat (length (handlers st)) + reserved st /\
  g_active_connections st <= K /\
  Z.of_nat (length (handlers st)) <= K /\
  (K = 0 -> handlers st = [] /\ g_active_connections st = 0) /\
  (forall env, releases (conn_handler env) = 1) /\
  (acceptor st = Acc_select ->
   ((K = 0 \/ g_active_connections st = K) ->
    forall fd b1 b2,
      server_run K st [Connection_accepted fd; Acceptor_steps b1; Acceptor_steps b2]
      = mk_server (g_active_connections st) Acc_select (handlers st)
                  (wire st ++ [(fd, Act_close)])) /\
   (g_active_connections st < K ->
    forall fd,
      (forall b1 b2,
         server_run K st [Connection_accepted fd; Acceptor_steps b1; Acceptor_steps b2]
         = mk_server (g_active_connections st + 1) (Acc_reserved fd)
                     (handlers st) (wire st)) /\
      server_run K st (admit_all [fd])
      = mk_server (g_active_connections st + 1) Acc_select
                  (handlers st ++ [fd]) (wire st) /\
      server_run K st [Connection_accepted fd; Acceptor_steps true;
                       Acceptor_steps true; Acceptor_steps false]
      = mk_server (g_active_connections st) Acc_select (handlers st)
                  (wire st ++ [(fd, Act_close)])) /\
   (0 < K -> g_active_connections st = K ->
    forall fd0 env fd1 fd2 b1 b2,
      mem_fd fd0 (handlers st) = true ->
      let st1 := server_step K st (Handler_finishes fd0 env) in
      let st2 := server_run K st1 (admit_all [fd1]) in
      g_active_connections st1 = K - 1 /\
      handlers st2 = remove_first fd0 (handlers st) ++ [fd1] /\
      g_active_connections st2 = K /\
      server_run K st2 [Connection_accepted fd2; Acceptor_steps b1; Acceptor_steps b2]
      = mk_server K Acc_select (handlers st2) (wire st2 ++ [(fd2, Act_close)]))).
Proof.
  cbv zeta. intros HK.
  pose proof (admission_inv_run K schedule HK) as (Hcnt & Hle & _).
  set (st := server_run K server_init schedule) in *.
  assert (Hres : 0 <= reserved st <= 1)
    by (unfold reserved; destruct (acceptor st); lia).
  split; [exact Hcnt|]. split; [exact Hle|]. split; [lia|]. split.
  { intros ->. split; [|lia]. destruct (handlers st); [reflexivity|].
    cbn [length] in Hcnt. lia. }
  split; [apply releases_conn_handler|].
  intros Hpc.
  assert (Hres0 : reserved st = 0) by (unfold reserved; now rewrite Hpc).
  split; [|split].
  - intros Hfull fd b1 b2. apply refused_when_full; [assumption|].
    destruct Hfull as [->|Hfull]; [now left|].
    destruct (decide (K = 0)) as [->|Hne]; [now left|right; lia].
  - intros Hroom fd. split; [|split].
    + intros b1 b2. apply reserved_before_spawn; [assumption|lia|lia].
    + apply admitted_when_room; [assumption|lia|lia].
    + apply slot_released_when_spawn_fails; [assumption|lia|lia].
  - intros Hpos Hfull fd0 env fd1 fd2 b1 b2 Hmem.
    rewrite handler_exit_releases by (try assumption; lia).
    rewrite admitted_when_room by (cbn; try assumption; lia).
    cbn [g_active_connections handlers].
    split; [lia|]. split; [reflexivity|]. split; [lia|].
    rewrite refused_when_full by (cbn; first [reflexivity|right; lia]).
    cbn. f_equal. lia.
Qed.

Lemma admission_control_witness :
  let st := server_run 2 server_init (admit_all [4; 5]) in
  0 <= 2 <= INT_MAX /\
  g_active_connections st = 2 /\ handlers st = [4; 5] /\
  (forall b1 b2,
     server_run 2 st [Connection_accepted 6; Acceptor_steps b1; Acceptor_steps b2]
     = mk_server 2 Acc_select [4; 5] [(6, Act_close)]).
Proof.
  cbv zeta.
  assert (HK : 0 <= 2 <= INT_MAX) by (vm_compute; split; discriminate).
  split; [exact HK|]. split; [reflexivity|]. split; [reflexivity|].
  intros b1 b2.
  exact (proj1 (proj2 (proj2 (proj2 (proj2 (proj2
           (admission_control 2 (admit_all [4; 5]) HK))))) eq_refl)
           (or_intror eq_refl) 6 b1 b2).
Defined.

(** ** Configuration reload *)

Example config_file_parses :
  read_config_from_file
    (Some (cstr "max_connections=64\nbacklog=16\nport=8080\n"))
    DEFAULT_SERVER_CONFIG
  = (0, mk_config 64 16 8080).
Proof. vm_compute. reflexivity. Qed.

Lemma reload_without_file_keeps_config (g : server_globals) :
  handle_signal SIGUSR2 None g = g.
Proof. now destruct g. Qed.

Lemma read_config_stops_at_backlog content cfg v1 r1 :
  fscanf_key "max_connections=" content = Some (v1, r1) ->
  fscanf_key "backlog=" r1 = None ->
  read_config_from_file (Some content) cfg
  = (-2, mk_config v1 (backlog cfg) (port cfg)).
Proof. intros H1 H2. unfold read_config_from_file. now rewrite H1, H2. Qed.

Lemma read_config_stops_at_port content cfg v1 r1 v2 r2 :
  fscanf_key "max_connections=" content = Some (v1, r1) ->
  fscanf_key "backlog=" r1 = Some (v2, r2) ->
  fscanf_key "port=" r2 = None ->
  read_config_from_file (Some content) cfg = (-2, mk_config v1 v2 (port cfg)).
Proof. intros H1 H2 H3. unfold read_config_from_file. now rewrite H1, H2, H3. Qed.

(** C6: a store whose first line parses and whose second line does not makes
    [read_config_from_file] fail with -2 after it has already overwritten
    [max_connections]; the reload signal leaves that half-updated structure
    in place.  (A missing store leaves the configuration alone, and at
    startup a failed read is replaced by the defaults as a whole.) *)
Theorem reload_failure_overwrites_max_connections :
  let file := Some (cstr "max_connections=20\nbacklog=five\nport=8080\n") in
  let before := mk_globals DEFAULT_SERVER_CONFIG true true 0 in
  let after := handle_signal SIGUSR2 file before in
  read_config_from_file file DEFAULT_SERVER_CONFIG = (-2, mk_config 20 5 3737) /\
  g_server_config after = mk_config 20 5 3737 /\
  g_server_config after <> g_server_config before /\
  handle_signal SIGUSR2 None before = before /\
  startup_config file = DEFAULT_SERVER_CONFIG.
Proof.
  cbv zeta. repeat split; try (vm_compute; reflexivity).
  vm_compute. discriminate.
Qed.

(** ** Shutdown of the producer *)

Lemma producer_main_success env os :
  shm_open_ok env = true -> ftruncate_ok env = true ->
  mmap_ok env = true -> sem_open_ok env = true ->
  producer_main env os
  = (0,
     mk_os (<[SHM_NAME := foldl producer_cycle shared_data_zero (cycles env)]>
              (match shm_objects os !! SHM_NAME with
               | Some _ => shm_objects os
               | None => <[SHM_NAME := shared_data_zero]> (shm_objects os)
               end))
           ({[SEM_NAME]} ∪ named_semaphores os),
     mk_handles false false false).
Proof.
  intros H1 H2 H3 H4. unfold producer_main. rewrite H1, H2, H3, H4. reflexivity.
Qed.

(** C7 (amended): when the producer leaves its loop it closes its semaphore
    handle, unmaps the segment, closes the descriptor and returns 0; the
    named shared-memory object, holding the last state of the ring, and the
    named semaphore still exist, and no other name is touched. *)
Theorem producer_exit_keeps_named_objects (env : producer_env) (os : os_names) :
  shm_open_ok env = true -> ftruncate_ok env = true ->
  mmap_ok env = true -> sem_open_ok env = true ->
  let status := (producer_main env os).1.1 in
  let os' := (producer_main env os).1.2 in
  let held := (producer_main env os).2 in
  status = 0 /\
  held = mk_handles false false false /\
  shm_objects os' !! SHM_NAME
  = Some (foldl producer_cycle shared_data_zero (cycles env)) /\
  SEM_NAME ∈ named_semaphores os' /\
  (forall name, name <> SHM_NAME ->
                shm_objects os' !! name = shm_objects os !! name) /\
  (forall name, name ∈ named_semaphores os' <->
                name = SEM_NAME \/ name ∈ named_semaphores os).
Proof.
  intros H1 H2 H3 H4. cbv zeta.
  rewrite (producer_main_success env os H1 H2 H3 H4). cbn [fst snd shm_objects named_semaphores].
  split; [reflexivity|]. split; [reflexivity|].
  split; [apply lookup_insert_eq|]. split; [set_solver|]. split.
  - intros name Hne. rewrite lookup_insert_ne by congruence.
    destruct (shm_objects os !! SHM_NAME); [reflexivity|].
    now rewrite lookup_insert_ne by congruence.
  - intros name. set_solver.
Qed.

Lemma producer_exit_keeps_named_objects_witness :
  let env := mk_producer_env true true true true [Some (reading 1); None; Some (reading 2)] in
  let os' := (producer_main env (mk_os ∅ ∅)).1.2 in
  shm_objects os' !! SHM_NAME
  = Some (producer_writes shared_data_zero [reading 1; reading 2]) /\
  SEM_NAME ∈ named_semaphores os'.
Proof.
  cbv zeta.
  pose proof (producer_exit_keeps_named_objects
                (mk_producer_env true true true true
                                 [Some (reading 1); None; Some (reading 2)])
                (mk_os ∅ ∅) eq_refl eq_refl eq_refl eq_refl)
    as (_ & _ & Hshm & Hsem & _).
  split; [exact Hshm|exact Hsem].
Defined.

(** C7 as stated fails: after a run that ends with status 0 the segment and
    the semaphore are still there. *)
Lemma producer_exit_removes_nothing_counterexample :
  let env := mk_producer_env true true true true [Some (reading 1)] in
  let status := (producer_main env (mk_os ∅ ∅)).1.1 in
  let os' := (producer_main env (mk_os ∅ ∅)).1.2 in
  status = 0 /\
  ~ (shm_objects os' !! SHM_NAME = None /\ SEM_NAME ∉ named_semaphores os').
Proof.
  cbv zeta. rewrite producer_main_success by reflexivity.
  cbn [fst snd shm_objects named_semaphores].
  split; [reflexivity|]. intros [Hshm _].
  rewrite lookup_insert_eq in Hshm. discriminate.
Qed.

(** * Further properties of the sources *)

(** * Further properties *)

(** ** The producer *)


(** X2: a write into a well-formed segment puts the sample into the slot
    just before the new write index, leaves every other slot alone and keeps
    index and count within the ring. *)
Theorem producer_write_latest_slot
    (sd : shared_data_t) (s : mpu6050_sample_float_t) :
  length (buffer sd) = Z.to_nat BUFFER_SIZE ->
  0 <= write_index sd < BUFFER_SIZE ->
  0 <= count sd <= BUFFER_SIZE ->
  let sd' := producer_write sd s in
  length (buffer sd') = Z.to_nat BUFFER_SIZE /\
  0 <= write_index sd' < BUFFER_SIZE /\
  0 <= count sd' <= BUFFER_SIZE /\
  count sd <= count sd' /\
  buffer sd' !! Z.to_nat ((write_index sd' + BUFFER_SIZE - 1) mod BUFFER_SIZE)
  = Some s /\
  (forall i : nat, Z.of_nat i <> write_index sd ->
                   buffer sd' !! i = buffer sd !! i).
Proof.
  unfold BUFFER_SIZE. intros Hlen Hwi Hcnt. cbv zeta.
  unfold producer_write, wrap64, SIZE_MOD, BUFFER_SIZE. cbn [buffer write_index count].
  change (2 ^ 64) with 18446744073709551616.
  rewrite length_insert.
  split; [assumption|]. split; [mod_lia|]. split.
  { destruct (Z.ltb_spec (count sd) 16); mod_lia. }
  split.
  { destruct (Z.ltb_spec (count sd) 16); mod_lia. }
  split.
  - replace (Z.to_nat _) with (Z.to_nat (write_index sd)) by mod_lia.
    apply list_lookup_insert_eq. lia.
  - intros i Hi. apply list_lookup_insert_ne. lia.
Qed.

Lemma producer_write_latest_slot_witness :
  let sd := producer_writes shared_data_zero (readings 1 18) in
  write_index (producer_write sd (reading 19)) = 3 /\
  buffer (producer_write sd (reading 19)) !! 2%nat = Some (reading 19).
Proof.
  cbv zeta.
  pose proof (producer_write_latest_slot
                (producer_writes shared_data_zero (readings 1 18)) (reading 19)
                eq_refl
                ltac:(vm_compute; split; [discriminate|reflexivity])
                ltac:(vm_compute; split; discriminate))
    as (_ & _ & _ & _ & Hslot & _).
  split; [vm_compute; reflexivity|exact Hslot].
Defined.

(** X3: startup of the producer.  The exit status is 0 exactly when the four
    startup calls succeed, and 1 otherwise; when [shm_open] fails nothing
    changes; once [shm_open] has succeeded the named segment exists
    afterwards whatever happens next; the semaphore is created only by a
    run that ends with status 0. *)
Theorem producer_startup_failures (env : producer_env) (os : os_names) :
  let status := (producer_main env os).1.1 in
  let os' := (producer_main env os).1.2 in
  (status = 0 \/ status = 1) /\
  (status = 0 <->
   shm_open_ok env && ftruncate_ok env && mmap_ok env && sem_open_ok env = true) /\
  (shm_open_ok env = false -> os' = os) /\
  (shm_open_ok env = true -> is_Some (shm_objects os' !! SHM_NAME)) /\
  (status = 1 -> named_semaphores os' = named_semaphores os).
Proof.
  cbv zeta. unfold producer_main.
  destruct (shm_open_ok env), (ftruncate_ok env), (mmap_ok env), (sem_open_ok env);
    cbn [negb fst snd andb shm_objects named_semaphores];
    repeat split; intros; try discriminate; try tauto; try lia;
    try (now destruct os);
    try (rewrite ?lookup_insert_eq; destruct (shm_objects os !! SHM_NAME) eqn:E;
         rewrite ?lookup_insert_eq, ?E; eauto).
Qed.

(** ** Producer and reader thread together *)

Lemma last_slot_untouched ws :
  (length ws <= 15)%nat ->
  buffer (producer_writes shared_data_zero ws) !! 15%nat = Some sample_zero.
Proof.
  induction ws as [|s ws IH] using rev_ind; intros Hlen; [reflexivity|].
  rewrite length_app in Hlen. cbn [length] in Hlen.
  rewrite producer_writes_snoc.
  destruct (ring_inv_writes ws) as (Hl & Hwi & _ & _).
  unfold producer_write. cbn [buffer].
  rewrite list_lookup_insert_ne by (rewrite Hwi; mod_lia).
  apply IH. lia.
Qed.

(** X4: after N producer cycles on a fresh segment, what an iteration of the
    reader thread stores as the cache's average is the zero sample while
    N < 16, and afterwards the raw sample of cycle number 16 * (N / 16): the
    last one that landed in slot 15. *)
Theorem reader_caches_sixteenth_samples
    (ws : list mpu6050_sample_float_t) (c : cached_data_t) :
  let sd := producer_writes shared_data_zero ws in
  let c' := data_reader_iteration (Some sd) c in
  ((length ws < 16)%nat -> cache_average c' = sample_zero) /\
  ((16 <= length ws)%nat ->
   ws !! (16 * (length ws / 16) - 1)%nat = Some (cache_average c')).
Proof.
  cbv zeta. unfold data_reader_iteration, shm_copy.
  cbn [cache_current_sample cache_average bump_version store_average store_sample].
  change (Z.to_nat (BUFFER_SIZE - 1)) with 15%nat. unfold buffer_at. split.
  - intros Hlt. rewrite last_slot_untouched by lia. reflexivity.
  - intros Hge. destruct (ring_inv_writes ws) as (_ & _ & _ & Hslots).
    specialize (Hslots (16 * (length ws / 16) - 1)%nat).
    replace ((16 * (length ws / 16) - 1) mod 16)%nat with 15%nat in Hslots
      by mod_lia.
    rewrite Hslots by mod_lia.
    destruct (lookup_lt_is_Some_2 ws (16 * (length ws / 16) - 1)%nat) as [x Hx];
      [mod_lia|].
    rewrite Hx. reflexivity.
Qed.

Lemma reader_caches_sixteenth_samples_witness :
  cache_average (data_reader_iteration
                   (Some (producer_writes shared_data_zero (readings 1 40)))
                   g_cached_data_init)
  = reading 32.
Proof.
  pose proof (proj2 (reader_caches_sixteenth_samples
                       (readings 1 40) g_cached_data_init)
                ltac:(vm_compute; lia)) as H.
  cbv zeta in H.
  change (readings 1 40 !! (16 * (length (readings 1 40) / 16) - 1)%nat)
    with (Some (reading 32)) in H.
  symmetry. apply (inj Some). exact H.
Defined.

(** ** The deadline of [wait_for_new_data] *)

(** X5: for a normalised clock reading and a timeout that is not negative,
    the deadline is normalised again and lies exactly [timeout_ms]
    milliseconds after the reading. *)
Theorem wait_deadline_exact (now : timespec) (timeout_ms : Z) :
  0 <= tv_sec now < 2 ^ 62 ->
  0 <= tv_nsec now < 1000000000 ->
  0 <= timeout_ms <= INT_MAX ->
  let d := wait_deadline now timeout_ms in
  0 <= tv_nsec d < 1000000000 /\
  timespec_ns d = timespec_ns now + timeout_ms * 1000000.
Proof.
  unfold INT_MAX. change (2 ^ 31) with 2147483648. change (2 ^ 62) with 4611686018427387904.
  intros Hs Hn Ht. cbv zeta. unfold wait_deadline, timespec_ns, wrap_long, wrap_int.
  change (2 ^ 31) with 2147483648. change (2 ^ 32) with 4294967296.
  change (2 ^ 63) with 9223372036854775808.
  change (2 ^ 64) with 18446744073709551616.
  pose proof (Z.quot_rem timeout_ms 1000 ltac:(lia)) as Hqr.
  pose proof (Z.rem_bound_pos timeout_ms 1000 ltac:(lia) ltac:(lia)) as Hr.
  pose proof (Z.quot_pos timeout_ms 1000 ltac:(lia) ltac:(lia)) as Hq.
  assert (Hq2 : timeout_ms ÷ 1000 <= 2147483647) by (apply Z.quot_le_upper_bound; lia).
  set (q := timeout_ms ÷ 1000) in *. set (r := Z.rem timeout_ms 1000) in *.
  replace ((r * 1000000 + 2147483648) mod 4294967296 - 2147483648)
    with (r * 1000000) by mod_lia.
  replace ((tv_sec now + q + 9223372036854775808) mod 18446744073709551616
           - 9223372036854775808) with (tv_sec now + q) by mod_lia.
  replace ((tv_nsec now + r * 1000000 + 9223372036854775808) mod 18446744073709551616
           - 9223372036854775808) with (tv_nsec now + r * 1000000) by mod_lia.
  destruct (Z.leb_spec 1000000000 (tv_nsec now + r * 1000000)); cbn [tv_sec tv_nsec].
  - replace ((tv_sec now + q + 1 + 9223372036854775808) mod 18446744073709551616
             - 9223372036854775808) with (tv_sec now + q + 1) by mod_lia.
    replace ((tv_nsec now + r * 1000000 - 1000000000 + 9223372036854775808)
               mod 18446744073709551616 - 9223372036854775808)
      with (tv_nsec now + r * 1000000 - 1000000000) by mod_lia.
    lia.
  - lia.
Qed.

Lemma wait_deadline_exact_witness :
  let now := mk_timespec 1700000000 950000000 in
  let d := wait_deadline now 100 in
  0 <= tv_nsec d < 1000000000 /\
  timespec_ns d = timespec_ns now + 100 * 1000000.
Proof.
  cbv zeta.
  apply (wait_deadline_exact (mk_timespec 1700000000 950000000) 100);
    vm_compute; split; first [discriminate|reflexivity].
Defined.

(** ** The request line *)

Lemma scan_word_spec w s tok rest :
  scan_word w s = (tok, rest) ->
  token_chars tok = true /\ (String.length tok <= w)%nat /\ s = tok +:+ rest.
Proof.
  revert s tok rest. induction w as [|w IH]; intros s tok rest H.
  - destruct s; injection H as <- <-; repeat split; cbn; lia.
  - destruct s as [|c r]; [injection H as <- <-; repeat split; cbn; lia|].
    cbn in H. destruct (isspace c || is_nul c) eqn:Hc.
    + injection H as <- <-. repeat split; cbn; lia.
    + destruct (scan_word w r) as [t r'] eqn:E. injection H as <- <-.
      destruct (IH _ _ _ E) as (Ht & Hl & ->).
      cbn. rewrite Hc, Ht. repeat split; lia.
Qed.

Lemma scan_s_spec w s tok rest :
  scan_s w s = Some (tok, rest) ->
  is_token tok = true /\ (String.length tok <= w)%nat /\
  skip_space s = tok +:+ rest.
Proof.
  unfold scan_s. destruct (scan_word w (skip_space s)) as [t r] eqn:E.
  destruct (scan_word_spec _ _ _ _ E) as (Ht & Hl & Hs).
  destruct t as [|c t]; [discriminate|]. intros [= <- <-]. auto.
Qed.

(** X6: the three tokens [sscanf] hands to the handler are not empty, hold
    neither white space nor NUL, and fit the buffers [method[16]],
    [path[256]] and [version[16]] with their terminator. *)
Theorem sscanf_request_fits_buffers (request method path version : string) :
  sscanf_request request = Some (method, path, version) ->
  (is_token method = true /\ (String.length method < 16)%nat) /\
  (is_token path = true /\ (String.length path < 256)%nat) /\
  (is_token version = true /\ (String.length version < 16)%nat).
Proof.
  unfold sscanf_request.
  destruct (scan_s 15 request) as [[m r1]|] eqn:E1; [|discriminate].
  destruct (scan_s 255 r1) as [[p r2]|] eqn:E2; [|discriminate].
  destruct (scan_s 15 r2) as [[v r3]|] eqn:E3; [|discriminate].
  intros [= <- <- <-].
  apply scan_s_spec in E1 as (? & ? & _), E2 as (? & ? & _), E3 as (? & ? & _).
  repeat split; try assumption; lia.
Qed.

Lemma sscanf_request_fits_buffers_witness :
  let long := string_repeat "a" 300 in
  exists method path version,
    sscanf_request ("GET /" +:+ long +:+ " HTTP/1.1") = Some (method, path, version) /\
    String.length path = 255%nat /\ (String.length version < 16)%nat.
Proof.
  cbv zeta. eexists _, _, _.
  assert (H : sscanf_request ("GET /" +:+ string_repeat "a" 300 +:+ " HTTP/1.1")
              = Some ("GET", "/" +:+ string_repeat "a" 254, string_repeat "a" 15))
    by (vm_compute; reflexivity).
  split; [exact H|]. split; [vm_compute; reflexivity|].
  exact (proj2 (proj2 (proj2 (sscanf_request_fits_buffers _ _ _ _ H)))).
Defined.

(** ** The socket of a handler *)

Lemma closes_app l1 l2 : closes (l1 ++ l2) = closes l1 + closes l2.
Proof.
  induction l1 as [|a l1 IH]; [reflexivity|].
  destruct a; cbn [app closes]; lia.
Qed.

Lemma closes_sse_loop its : forall v, closes (sse_loop its v) = 0.
Proof.
  induction its as [|it its IH]; intros v; [reflexivity|].
  destruct it as [| |seen now sent|events]; cbn [sse_loop].
  - apply IH.
  - reflexivity.
  - destruct (cache_version seen =? v); [apply IH|].
    destruct (get_cached_data seen) as [s a]. cbn [closes].
    destruct (sent <=? 0); [reflexivity|apply IH].
  - destruct (negb _); [reflexivity|apply IH].
Qed.


Lemma closes_last_single : closes_last [Act_close].
Proof. exists []. repeat split. Qed.

Lemma closes_last_cons a l :
  a <> Act_close -> a <> Act_release_slot -> closes_last l -> closes_last (a :: l).
Proof.
  intros Ha Hb (pre & -> & Hc & Hr). exists (a :: pre).
  repeat split; destruct a; cbn; congruence.
Qed.

Lemma closes_last_send_response env h b : closes_last (send_response env h b).
Proof.
  unfold send_response.
  repeat match goal with
         | |- context [if ?c then _ else _] => destruct c
         end; cbn [app];
    repeat (apply closes_last_cons; [discriminate|discriminate|]);
    apply closes_last_single.
Qed.

Lemma closes_last_serve r env : closes_last (serve r env).
Proof.
  unfold serve. destruct (get_cached_data (env_cache env)) as [s a].
  destruct r; try apply closes_last_send_response.
  unfold serve_events.
  apply closes_last_cons; [discriminate|discriminate|].
  destruct (_ <=? 0); [apply closes_last_single|].
  apply closes_last_cons; [discriminate|discriminate|].
  destruct (_ <=? 0); [apply closes_last_single|].
  destruct (negb (env_epoll_create env)); [apply closes_last_single|].
  destruct (negb (env_epoll_ctl env)).
  { apply closes_last_cons; [discriminate|discriminate|apply closes_last_single]. }
  exists (sse_loop (env_iterations env) 0 ++ [Act_close_epoll; Act_shutdown]).
  rewrite <- app_assoc, closes_app, releases_app, closes_sse_loop, releases_sse_loop.
  repeat split.
Qed.

(** X7: a handler that was given a socket closes it exactly once, after its
    last [send], and releases its slot right after; a handler started
    without argument only releases the slot. *)
Theorem conn_handler_closes_once (env : handler_env) :
  (env_arg env = false -> conn_handler env = [Act_release_slot]) /\
  (env_arg env = true ->
   exists pre,
     conn_handler env = pre ++ [Act_close; Act_release_slot] /\
     closes pre = 0 /\ releases pre = 0).
Proof.
  unfold conn_handler, conn_handler_body. split; intros ->; [reflexivity|].
  cbn [negb].
  assert (H : closes_last
                match env_recv env with
                | Some (String a s0 as received) =>
                    match sscanf_request (string_take 1023 received) with
                    | Some (_, path, _) => serve (route_of_path path) env
                    | None => [Act_close]
                    end
                | _ => [Act_close]
                end).
  { destruct (env_recv env) as [[|c r]|]; try apply closes_last_single.
    destruct (sscanf_request _) as [[[? path] ?]|]; [|apply closes_last_single].
    apply closes_last_serve. }
  destruct H as (pre & -> & Hc & Hr). exists pre.
  rewrite <- app_assoc. auto.
Qed.

Lemma conn_handler_closes_once_witness :
  exists pre,
    conn_handler (plain_env "GET /json HTTP/1.1" g_cached_data_init 0)
    = pre ++ [Act_close; Act_release_slot] /\ closes pre = 0 /\ releases pre = 0.
Proof.
  exact (proj2 (conn_handler_closes_once
                  (plain_env "GET /json HTTP/1.1" g_cached_data_init 0)) eq_refl).
Defined.

(** ** Decimal numbers *)

Lemma length_append s t :
  String.length (s +:+ t) = (String.length s + String.length t)%nat.
Proof.
  induction s as [|c s IH]; [reflexivity|].
  rewrite append_cons. cbn [String.length]. now rewrite IH.
Qed.

Lemma pretty_N_go_length (k : nat) : forall (x : N) (s : string),
  (x < 10 ^ N.of_nat k)%N ->
  (String.length (pretty_N_go x s) <= String.length s + k)%nat.
Proof.
  induction k as [|k IH]; intros x s Hx.
  - assert (x = 0%N) as -> by (cbn in Hx; lia). rewrite pretty_N_go_0. lia.
  - destruct (decide (x = 0)%N) as [->|Hne]; [rewrite pretty_N_go_0; lia|].
    rewrite pretty_N_go_step by lia.
    etrans; [apply IH|cbn; lia].
    rewrite Nat2N.inj_succ, N.pow_succ_r' in Hx.
    apply N.Div0.div_lt_upper_bound. lia.
Qed.

Lemma pretty_Z_length (k : nat) (n : Z) :
  0 <= n < 10 ^ Z.of_nat k ->
  (String.length (pretty n) <= Nat.max 1 k)%nat.
Proof.
  intros [H0 Hn]. destruct n as [|p|p]; [cbn; lia| |lia].
  change (pretty (Z.pos p)) with (pretty (N.pos p)).
  unfold pretty, pretty_N. destruct (decide (N.pos p = 0%N)); [discriminate|].
  pose proof (pretty_N_go_length k (N.pos p) EmptyString) as H.
  cbn [String.length] in H. etrans; [apply H|lia].
  apply N2Z.inj_lt. rewrite N2Z.inj_pow, nat_N_Z. exact Hn.
Qed.


(** ** The length announced for the JSON snapshot *)

Lemma json_header_sprintf n :
  sprintf (cstr json_header_format) [Arg_d n] = json_header n.
Proof. reflexivity. Qed.

Lemma json_body_nonempty s a now :
  (1 <= String.length (sprintf (cstr json_format) (json_args s a now)))%nat.
Proof.
  assert (Hf : exists r, cstr json_format = String "{" r)
    by (eexists; vm_compute; reflexivity).
  destruct Hf as [r ->]. cbn [sprintf String.length]. lia.
Qed.

(** X8: for [/json] with a first [send] that goes through, the header
    announces the length the whole JSON text would have, while at most 511
    bytes of it are sent: Content-Length is the number of body bytes exactly
    when the text fits the 512-byte buffer. *)
Theorem json_content_length (env : handler_env) :
  let out := sprintf (cstr json_format)
                     (json_args (get_cached_data (env_cache env)).1
                                (get_cached_data (env_cache env)).2
                                (env_time env)) in
  env_send_first env = None ->
  Z.of_nat (String.length out) < 1000000 ->
  serve Route_json env
  = [Act_send (json_header (Z.of_nat (String.length out)));
     Act_send (string_take 511 out); Act_close] /\
  String.length (string_take 511 out) = Nat.min 511 (String.length out) /\
  ((String.length out <= 511)%nat -> string_take 511 out = out).
Proof.
  cbv zeta. intros Hsend Hlen.
  split; [|split; [apply length_string_take|apply string_take_all]].
  unfold serve, get_cached_data, snprintf, send_response in *.
  cbn [fst snd] in *.
  set (out := sprintf (cstr json_format) _) in *.
  pose proof (json_body_nonempty (cache_current_sample (env_cache env))
                (cache_average (env_cache env)) (env_time env)) as Hpos.
  fold out in Hpos.
  rewrite json_header_sprintf, Hsend.
  assert (Hh : (66 <= String.length (json_header (Z.of_nat (String.length out))) <= 94)%nat).
  { unfold json_header. rewrite !length_append.
    pose proof (pretty_Z_length 6 (Z.of_nat (String.length out))
                  ltac:(change (10 ^ Z.of_nat 6) with 1000000; lia)).
    assert (String.length
              (cstr "HTTP/1.1 200 OK\r\nContent-Type: application/json\r\nContent-Length: ")
            = 65%nat) as -> by reflexivity.
    assert (String.length (cstr "\r\nConnection: close\r\n\r\n") = 23%nat) as ->
      by reflexivity.
    lia. }
  set (hdr := json_header _) in *.
  unfold send_result, clamp_len. cbn [default].
  destruct (Z.ltb_spec (Z.of_nat (String.length hdr)) 0); [lia|].
  destruct (Z.leb_spec 256 (Z.of_nat (String.length hdr))); [lia|].
  destruct (Z.ltb_spec 0 (Z.of_nat (String.length hdr))); [|lia].
  rewrite Z.eqb_refl, Nat2Z.id.
  rewrite (string_take_all (256 - 1) hdr) by lia.
  rewrite (string_take_all _ hdr) by lia.
  destruct (Z.ltb_spec (Z.of_nat (String.length out)) 0); [lia|].
  change (512 - 1)%nat with 511%nat.
  destruct (Z.leb_spec 512 (Z.of_nat (String.length out))).
  - change (0 <? 512 - 1) with true. change (Z.to_nat (512 - 1)) with 511%nat.
    cbn [app]. rewrite (string_take_all 511 (string_take 511 out))
      by (rewrite length_string_take; lia). reflexivity.
  - destruct (Z.ltb_spec 0 (Z.of_nat (String.length out))); [|lia].
    rewrite Nat2Z.id. cbn [app].
    rewrite (string_take_all (String.length out) (string_take 511 out))
      by (rewrite length_string_take; lia). reflexivity.
Qed.

Lemma json_content_length_witness :
  let env := plain_env "GET /json HTTP/1.1" g_cached_data_init 1700000000 in
  serve Route_json env
  = [Act_send (json_header 261);
     Act_send (sprintf (cstr json_format)
                       (json_args sample_zero sample_zero 1700000000));
     Act_close].
Proof.
  cbv zeta.
  destruct (json_content_length
              (plain_env "GET /json HTTP/1.1" g_cached_data_init 1700000000)
              eq_refl ltac:(vm_compute; reflexivity)) as (H & _ & Hfit).
  cbv zeta in Hfit. rewrite (Hfit ltac:(vm_compute; lia)) in H. exact H.
Defined.

(** A reading of 10^20 in every field does not fit the buffer. *)
Example json_content_length_overstated :
  let big := f_of_Z (10 ^ 20) in
  let s := mk_sample big big big big big big big in
  exists header body,
    serve Route_json (plain_env "GET /json HTTP/1.1" (mk_cache s s 1) 1700000000)
    = [Act_send header; Act_send body; Act_close] /\
    header = json_header 541 /\ String.length body = 511%nat.
Proof. cbv zeta. eexists _, _. vm_compute. repeat split. Qed.

(** ** The event stream *)






(** ** Requests with fewer than three tokens *)

Lemma scan_s_end w b : blank_chars b = true -> scan_s w b = None.
Proof.
  intros Hb. unfold scan_s.
  assert (skip_space b = EmptyString) as ->.
  { induction b as [|c b IH]; [reflexivity|]. cbn in *.
    apply andb_true_iff in Hb as [-> Hb]. auto. }
  destruct w; reflexivity.
Qed.

(** X10: a request made of a method of at most 15 characters and a path of
    at most 255 characters, with nothing but white space after it, gets no
    answer at all: the socket is closed and the slot released. *)
Theorem two_token_request_is_dropped
    (env : handler_env) (lead method sep path trail : string) :
  let request := lead +:+ method +:+ sep +:+ path +:+ trail in
  env_arg env = true ->
  env_recv env = Some request ->
  (String.length request <= 1023)%nat ->
  blank_chars lead = true ->
  is_token method = true -> (String.length method <= 15)%nat ->
  is_blank sep = true ->
  is_token path = true -> (String.length path <= 255)%nat ->
  blank_chars trail = true ->
  conn_handler env = [Act_close; Act_release_slot].
Proof.
  cbv zeta. intros Harg Hrecv Hlen Hlead Hm Hml Hs Hp Hpl Ht.
  unfold conn_handler, conn_handler_body. rewrite Harg, Hrecv. cbn [negb].
  destruct (lead +:+ method +:+ sep +:+ path +:+ trail) as [|c r] eqn:E;
    [reflexivity|].
  rewrite string_take_all by assumption. rewrite <- E.
  unfold sscanf_request.
  rewrite scan_s_blank by assumption.
  rewrite scan_s_token; [|assumption|intros _; now apply blank_starts_delimiter].
  rewrite string_take_all, string_drop_all by assumption. rewrite append_nil_l.
  rewrite scan_s_blank by now apply is_blank_chars.
  rewrite scan_s_token; [|assumption|].
  2:{ intros _. destruct trail as [|t ts]; [exact I|]. cbn in *.
      apply andb_true_iff in Ht as [-> _]. reflexivity. }
  rewrite string_take_all, string_drop_all by lia. rewrite append_nil_l.
  rewrite scan_s_end by assumption. reflexivity.
Qed.

Lemma two_token_request_is_dropped_witness :
  conn_handler (plain_env (cstr "GET /json\r\n") g_cached_data_init 0)
  = [Act_close; Act_release_slot].
Proof.
  apply (two_token_request_is_dropped
           (plain_env (cstr "GET /json\r\n") g_cached_data_init 0)
           EmptyString "GET" " " "/json" (cstr "\r\n"));
    try reflexivity; vm_compute; lia.
Defined.

(** ** Reading the configuration *)

(** X11: [read_config_from_file] returns 0, -1 or -2; -1 exactly when the
    file cannot be opened, and then the structure is untouched; whenever it
    fails, [port] keeps its value; and when it succeeds the result does not
    depend on what the structure held before. *)
Theorem read_config_outcomes (file : option string) (cfg : server_config_t) :
  let rc := (read_config_from_file file cfg).1 in
  let cfg' := (read_config_from_file file cfg).2 in
  (rc = 0 \/ rc = -1 \/ rc = -2) /\
  (rc = -1 <-> file = None) /\
  (rc = -1 -> cfg' = cfg) /\
  (rc <> 0 -> port cfg' = port cfg) /\
  (rc = 0 -> forall other, read_config_from_file file other = (0, cfg')).
Proof.
  cbv zeta. unfold read_config_from_file.
  destruct file as [content|]; cbn [fst snd].
  2:{ repeat split; intros; try tauto; try lia; discriminate. }
  destruct (fscanf_key "max_connections=" content) as [[v1 r1]|]; cbn [fst snd].
  2:{ repeat split; intros; try tauto; try lia; discriminate. }
  destruct (fscanf_key "backlog=" r1) as [[v2 r2]|]; cbn [fst snd].
  2:{ repeat split; intros; try tauto; try lia; discriminate. }
  destruct (fscanf_key "port=" r2) as [[v3 r3]|]; cbn [fst snd];
    repeat split; intros; try tauto; try lia; discriminate.
Qed.

(** *** A well-formed file is read back *)

Lemma scan_literal_app key s : scan_literal key (key +:+ s) = Some s.
Proof.
  induction key as [|c key IH]; [reflexivity|].
  rewrite append_cons. cbn. now rewrite Ascii.eqb_refl.
Qed.

Lemma isdigit_pretty_N_char d :
  (d < 10)%N ->
  isdigit (pretty_N_char d) = true /\
  Z.of_nat (nat_of_ascii (pretty_N_char d)) - 48 = Z.of_N d.
Proof.
  intros Hd.
  assert (d = 0 \/ d = 1 \/ d = 2 \/ d = 3 \/ d = 4 \/ d = 5 \/ d = 6 \/ d = 7
          \/ d = 8 \/ d = 9)%N as H by lia.
  repeat (destruct H as [->|H]; [split; reflexivity|]). subst. split; reflexivity.
Qed.

Lemma scan_digits_pretty_N_go (x : N) : forall s acc,
  exists k : nat,
    scan_digits (pretty_N_go x s) acc = scan_digits s (acc * 10 ^ Z.of_nat k + Z.of_N x).
Proof.
  induction (N.lt_wf_0 x) as [x _ IH]; intros s acc.
  destruct (decide (x = 0)%N) as [->|Hne].
  - exists 0%nat. rewrite pretty_N_go_0. f_equal. cbn. lia.
  - rewrite pretty_N_go_step by lia.
    destruct (IH (x `div` 10)%N ltac:(apply N.div_lt; lia)
                 (String (pretty_N_char (x `mod` 10)) s) acc) as [k ->].
    exists (S k). cbn [scan_digits].
    destruct (isdigit_pretty_N_char (x `mod` 10)%N) as [-> ->];
      [apply N.mod_lt; lia|].
    f_equal. rewrite Nat2Z.inj_succ, Z.pow_succ_r by lia.
    pose proof (N.div_mod x 10 ltac:(lia)) as Hdm.
    apply (f_equal Z.of_N) in Hdm. rewrite N2Z.inj_add, N2Z.inj_mul in Hdm.
    change (Z.of_N 10) with 10 in Hdm. lia.
Qed.

Lemma pretty_N_go_head (x : N) : forall s,
  (0 < x)%N -> exists c r, pretty_N_go x s = String c r /\ isdigit c = true.
Proof.
  induction (N.lt_wf_0 x) as [x _ IH]; intros s Hx.
  rewrite pretty_N_go_step by lia.
  destruct (decide (x `div` 10 = 0)%N) as [->|Hne].
  - rewrite pretty_N_go_0. eexists _, _. split; [reflexivity|].
    apply isdigit_pretty_N_char, N.mod_lt. lia.
  - apply IH; [apply N.div_lt; lia|lia].
Qed.

Lemma pretty_N_go_app (y : N) : forall u t,
  pretty_N_go y u +:+ t = pretty_N_go y (u +:+ t).
Proof.
  induction (N.lt_wf_0 y) as [y _ IH]; intros u t.
  destruct (decide (y = 0)%N) as [->|Hne]; [now rewrite !pretty_N_go_0|].
  rewrite (pretty_N_go_step y u), (pretty_N_go_step y (u +:+ t)) by lia.
  rewrite IH by (apply N.div_lt; lia). reflexivity.
Qed.

(** The decimal text of a number that is not negative: it starts with a
    digit and is read back by [scan_digits]. *)
Lemma pretty_nonneg_scan (n : Z) (s : string) :
  0 <= n -> starts_with_digit s = false ->
  starts_with_digit (pretty n +:+ s) = true /\
  scan_digits (pretty n +:+ s) 0 = (n, s).
Proof.
  intros Hn Hs.
  assert (Hstop : scan_digits s n = (n, s)).
  { destruct s as [|c r]; [reflexivity|]. cbn in *. now rewrite Hs. }
  destruct n as [|p|p]; [split; [reflexivity|exact Hstop]| |lia].
  change (pretty (Z.pos p)) with (pretty (N.pos p)).
  unfold pretty, pretty_N. destruct (decide (N.pos p = 0%N)); [discriminate|].
  rewrite pretty_N_go_app, append_nil_l. split.
  - destruct (pretty_N_go_head (N.pos p) s ltac:(lia)) as (c & r & -> & Hc).
    exact Hc.
  - destruct (scan_digits_pretty_N_go (N.pos p) s 0) as [k ->].
    rewrite Z.mul_0_l, Z.add_0_l. exact Hstop.
Qed.

Lemma store_int_id v : INT_MIN <= v <= INT_MAX -> store_int v = v.
Proof.
  unfold INT_MIN, INT_MAX, store_int. change (2 ^ 31) with 2147483648.
  change (2 ^ 63) with 9223372036854775808. intros H.
  rewrite Z.min_r, Z.max_r by lia. apply wrap_int_small.
  unfold INT_MIN, INT_MAX. change (2 ^ 31) with 2147483648. lia.
Qed.

Lemma pretty_Z_neg p : pretty (Z.neg p) = "-" +:+ pretty (Z.pos p).
Proof. reflexivity. Qed.

Lemma fscanf_key_line key v rest :
  INT_MIN <= v <= INT_MAX ->
  fscanf_key key (key +:+ pretty v +:+ String char_LF rest)
  = Some (v, skip_space rest).
Proof.
  intros Hv. unfold fscanf_key. rewrite scan_literal_app.
  assert (Hlf : starts_with_digit (String char_LF rest) = false) by reflexivity.
  unfold scan_d.
  destruct v as [|p|p].
  - cbn. reflexivity.
  - destruct (pretty_nonneg_scan (Z.pos p) (String char_LF rest) ltac:(lia) Hlf)
      as [Hd Hscan].
    assert (Hskip : skip_space (pretty (Z.pos p) +:+ String char_LF rest)
                    = pretty (Z.pos p) +:+ String char_LF rest).
    { destruct (pretty (Z.pos p) +:+ String char_LF rest) as [|c r] eqn:E;
        [reflexivity|]. cbn in Hd |- *.
      destruct (isspace c) eqn:Hsp; [|reflexivity].
      exfalso. revert Hd Hsp. unfold isdigit, isspace.
      destruct (nat_of_ascii c) as [|n]; [discriminate|].
      intros Hd Hsp. apply andb_true_iff in Hd as [Hd _].
      apply Nat.leb_le in Hd. apply orb_true_iff in Hsp as [Hsp|Hsp].
      - apply Nat.eqb_eq in Hsp. lia.
      - apply andb_true_iff in Hsp as [_ Hsp]. apply Nat.leb_le in Hsp. lia. }
    rewrite Hskip.
    destruct (pretty (Z.pos p) +:+ String char_LF rest) as [|c r] eqn:E;
      [discriminate|].
    assert (c <> "-"%char /\ c <> "+"%char) as [Hm Hp].
    { cbn in Hd. split; intros ->; discriminate. }
    assert (Hsign : match String c r with
                    | String "-" r0 => (true, r0)
                    | String "+" r0 => (false, r0)
                    | _ => (false, String c r)
                    end = (false, String c r)).
    { destruct c as [[] [] [] [] [] [] [] []]; try reflexivity; congruence. }
    rewrite Hsign, Hd, Hscan. rewrite store_int_id by assumption. reflexivity.
  - change (pretty (Z.neg p) +:+ String char_LF rest)
      with (String "-" (pretty (Z.pos p) +:+ String char_LF rest)).
    cbn [skip_space]. change (isspace "-") with false. cbv iota.
    destruct (pretty_nonneg_scan (Z.pos p) (String char_LF rest) ltac:(lia) Hlf)
      as [Hd Hscan].
    rewrite Hd, Hscan. rewrite store_int_id by assumption. reflexivity.
Qed.

Lemma skip_space_key key s :
  match key with String c _ => isspace c = false | EmptyString => False end ->
  skip_space (key +:+ s) = key +:+ s.
Proof.
  destruct key as [|c key]; [contradiction|]. intros Hc.
  rewrite append_cons. cbn. now rewrite Hc.
Qed.

(** X12: a file of the three lines [max_connections=], [backlog=] and
    [port=], each followed by the decimal text of an [int], is read back as
    exactly those three values, whatever the structure held before. *)
Theorem read_config_round_trip (c before : server_config_t) :
  INT_MIN <= max_connnections c <= INT_MAX ->
  INT_MIN <= backlog c <= INT_MAX ->
  INT_MIN <= port c <= INT_MAX ->
  read_config_from_file (Some (config_file_text c)) before = (0, c) /\
  startup_config (Some (config_file_text c)) = c.
Proof.
  intros H1 H2 H3.
  assert (H : forall b, read_config_from_file (Some (config_file_text c)) b = (0, c)).
  { intros b. unfold read_config_from_file, config_file_text.
    rewrite fscanf_key_line by assumption.
    rewrite (skip_space_key "backlog=") by reflexivity.
    rewrite fscanf_key_line by assumption.
    rewrite (skip_space_key "port=") by reflexivity.
    rewrite fscanf_key_line by assumption.
    now destruct c. }
  split; [apply H|]. unfold startup_config. now rewrite H.
Qed.

Lemma read_config_round_trip_witness :
  read_config_from_file
    (Some (cstr "max_connections=-1\nbacklog=128\nport=8080\n"))
    DEFAULT_SERVER_CONFIG
  = (0, mk_config (-1) 128 8080).
Proof.
  apply (read_config_round_trip (mk_config (-1) 128 8080) DEFAULT_SERVER_CONFIG);
    vm_compute; split; discriminate.
Defined.

(** ** Signals *)

Lemma handle_signal_fields sig file g :
  running (handle_signal sig file g) = running g && negb (is_termination sig) /\
  sigpipe_open (handle_signal sig file g) = sigpipe_open g /\
  wakeups (handle_signal sig file g)
  = wakeups g + (if is_termination sig && sigpipe_open g then 1 else 0) /\
  (sig <> SIGUSR2 -> g_server_config (handle_signal sig file g) = g_server_config g).
Proof.
  unfold handle_signal, is_termination.
  destruct (Z.eqb_spec sig SIGUSR2) as [->|Hne].
  - cbn. rewrite andb_true_r. repeat split; [lia|congruence].
  - destruct ((sig =? SIGTERM) || (sig =? SIGINT)); cbn.
    + rewrite andb_false_r. destruct (sigpipe_open g); repeat split; lia.
    + rewrite andb_true_r. destruct (sig =? SIGWINCH); repeat split; lia.
Qed.

(** X13: over any sequence of signals, [running] is true afterwards exactly
    when it was true before and no SIGTERM or SIGINT was among them (nothing
    sets it again); each of those writes one byte to the self-pipe when the
    pipe is open; and the configuration changes only through SIGUSR2. *)
Theorem shutdown_is_sticky (g : server_globals) (sigs : list (Z * option string)) :
  let g' := handle_signals g sigs in
  running g' = running g && forallb (fun s => negb (is_termination s.1)) sigs /\
  sigpipe_open g' = sigpipe_open g /\
  wakeups g'
  = wakeups g + (if sigpipe_open g
                 then Z.of_nat (length (filter (fun s => is_termination s.1 = true) sigs))
                 else 0) /\
  (Forall (fun s => s.1 <> SIGUSR2) sigs -> g_server_config g' = g_server_config g).
Proof.
  cbv zeta. unfold handle_signals. revert g.
  induction sigs as [|[sig file] sigs IH]; intros g.
  - cbn. rewrite andb_true_r. destruct (sigpipe_open g); repeat split; lia.
  - cbn [foldl fst snd forallb].
    destruct (IH (handle_signal sig file g)) as (Hr & Hp & Hw & Hc).
    destruct (handle_signal_fields sig file g) as (Hr1 & Hp1 & Hw1 & Hc1).
    rewrite Hr, Hp, Hw, Hr1, Hp1, Hw1. split; [now rewrite andb_assoc|].
    split; [reflexivity|]. split.
    + rewrite filter_cons. cbn [fst].
      destruct (is_termination sig), (sigpipe_open g); cbn [andb];
        try case_decide; try congruence; cbn [length]; lia.
    + intros Hall. inversion Hall as [|? ? Hne Hrest]; subst.
      rewrite (Hc Hrest). apply Hc1. exact Hne.
Qed.

Lemma shutdown_is_sticky_witness :
  let g := mk_globals DEFAULT_SERVER_CONFIG true true 0 in
  let sigs := [(SIGWINCH, None); (SIGTERM, None); (SIGINT, None)] in
  Forall (fun s : Z * option string => s.1 <> SIGUSR2) sigs /\
  g_server_config (handle_signals g sigs) = g_server_config g.
Proof.
  cbv zeta.
  assert (H : Forall (fun s : Z * option string => s.1 <> SIGUSR2)
                     [(SIGWINCH, None); (SIGTERM, None); (SIGINT, None)])
    by (repeat constructor; discriminate).
  split; [exact H|].
  exact (proj2 (proj2 (proj2 (shutdown_is_sticky
    (mk_globals DEFAULT_SERVER_CONFIG true true 0)
    [(SIGWINCH, None); (SIGTERM, None); (SIGINT, None)]))) H).
Defined.

(** ** Mutual exclusion on the cache *)

Lemma lock_inv_init shm : lock_inv (system_init shm).
Proof.
  repeat split; cbn; try discriminate.
  all: intros; rewrite lookup_nil in *; discriminate.
Qed.

Lemma lock_inv_reader_step st : lock_inv st -> lock_inv (reader_step st).
Proof.
  intros Hinv. pose proof Hinv as (Hrd & Hown & Hobs). unfold reader_step.
  destruct (sys_reader st) as [|s a|s a|a| |] eqn:Hpc; cbn in Hrd.
  - destruct (sys_running st); [|exact Hinv].
    destruct (sys_shm st); [|exact Hinv]. cbn.
    repeat split; cbn; try tauto; apply Hobs; assumption.
  - destruct (sys_mutex st) eqn:Hm; [exact Hinv|].
    repeat split; cbn; try tauto; try discriminate.
    + intros Hc. apply (Hobs i o H) in Hc. discriminate.
  - repeat split; cbn; try tauto; apply Hobs; assumption.
  - repeat split; cbn; try tauto; apply Hobs; assumption.
  - repeat split; cbn; try tauto; apply Hobs; assumption.
  - assert (Hm : sys_mutex st = Some T_reader) by tauto.
    repeat split; cbn; try tauto; try discriminate.
    intros Hc. apply (Hobs i o H) in Hc. congruence.
Qed.

Lemma lock_inv_set_observer st m' i o o' :
  lock_inv st ->
  sys_observers st !! i = Some o ->
  (m' = sys_mutex st \/
   (sys_mutex st = None /\ m' = Some (T_observer i)) \/
   (sys_mutex st = Some (T_observer i) /\ m' = None)) ->
  (observer_in_critical (pc o') = true <-> m' = Some (T_observer i)) ->
  lock_inv (set_observer st m' i o').
Proof.
  intros (Hrd & Hown & Hobs) Hi Hm Hnew.
  assert (Hlt : (i < length (sys_observers st))%nat)
    by (apply lookup_lt_is_Some; eauto).
  unfold lock_inv; cbn. split; [|split].
  - rewrite Hrd. destruct Hm as [->|[[-> ->]|[-> ->]]]; [tauto|split; discriminate..].
  - intros j Hj. apply lookup_lt_is_Some. rewrite length_insert.
    destruct Hm as [->|[[_ ->]|[_ ->]]].
    + apply lookup_lt_is_Some. auto.
    + injection Hj as <-. assumption.
    + discriminate.
  - intros j oj Hj. destruct (decide (i = j)) as [<-|Hne].
    + rewrite list_lookup_insert_eq in Hj by assumption. injection Hj as <-.
      exact Hnew.
    + rewrite list_lookup_insert_ne in Hj by assumption.
      rewrite (Hobs j oj Hj).
      destruct Hm as [->|[[-> ->]|[-> ->]]]; [tauto|split; congruence..].
Qed.

Lemma lock_inv_observer_step i choice st :
  lock_inv st -> lock_inv (observer_step i choice st).
Proof.
  intros Hinv. pose proof Hinv as (Hrd & Hown & Hobs). unfold observer_step.
  destruct (sys_observers st !! i) as [o|] eqn:Hi; [|exact Hinv].
  pose proof (Hobs i o Hi) as Ho.
  destruct (pc o) eqn:Hpc; cbn in Ho;
    try (destruct (sys_mutex st) eqn:Hm; [exact Hinv|]);
    try destruct (_ && _);
    (eapply lock_inv_set_observer; [exact Hinv|exact Hi| |]);
    cbn; rewrite ?Hm; try destruct choice; cbn;
    try tauto; try (split; [discriminate|tauto]);
    try (right; tauto); try (split; [tauto|discriminate]);
    try (right; right; tauto); try (split; congruence).
Qed.

Lemma lock_inv_step st e : lock_inv st -> lock_inv (system_step st e).
Proof.
  intros Hinv. destruct e as [s| | | |i choice].
  - exact Hinv.
  - exact Hinv.
  - destruct Hinv as (Hrd & Hown & Hobs). split; [exact Hrd|]. split; cbn.
    + intros j Hj. apply lookup_lt_is_Some. rewrite length_app.
      apply Hown, lookup_lt_is_Some in Hj. lia.
    + intros i o Hi.
      destruct (decide (i < length (sys_observers st))%nat) as [Hlt|Hge].
      * rewrite lookup_app_l in Hi by assumption. now apply Hobs.
      * rewrite lookup_app_r in Hi by lia.
        destruct (i - length (sys_observers st))%nat eqn:E;
          [|destruct n; discriminate].
        injection Hi as <-. cbn. split; [discriminate|].
        intros Hm. apply Hown, lookup_lt_is_Some in Hm. lia.
  - now apply lock_inv_reader_step.
  - now apply lock_inv_observer_step.
Qed.

Lemma lock_inv_run shm schedule : lock_inv (system_run (system_init shm) schedule).
Proof.
  induction schedule as [|e schedule IH] using rev_ind.
  - apply lock_inv_init.
  - rewrite system_run_snoc. now apply lock_inv_step.
Qed.

(** X14: in every interleaving, a thread is between its
    [pthread_mutex_lock] and its unlock (or its wait on the condition
    variable) exactly when it owns the mutex; so the reader thread is never
    inside its three assignments while an observer reads, and no two
    observers read at once. *)
Theorem cache_mutual_exclusion (shm : option shared_data_t) (schedule : list event) :
  let st := system_run (system_init shm) schedule in
  (reader_in_critical (sys_reader st) = true <-> sys_mutex st = Some T_reader) /\
  (forall i o, sys_observers st !! i = Some o ->
     (observer_in_critical (pc o) = true <-> sys_mutex st = Some (T_observer i))) /\
  (forall i o, sys_observers st !! i = Some o ->
     observer_in_critical (pc o) = true ->
     reader_in_critical (sys_reader st) = false) /\
  (forall i j oi oj,
     sys_observers st !! i = Some oi -> sys_observers st !! j = Some oj ->
     observer_in_critical (pc oi) = true -> observer_in_critical (pc oj) = true ->
     i = j).
Proof.
  cbv zeta. destruct (lock_inv_run shm schedule) as (Hrd & _ & Hobs).
  split; [exact Hrd|]. split; [exact Hobs|]. split.
  - intros i o Hi Hc. apply (Hobs i o Hi) in Hc.
    destruct (reader_in_critical _); [|reflexivity].
    pose proof (proj1 Hrd eq_refl). congruence.
  - intros i j oi oj Hi Hj Hci Hcj.
    apply (Hobs i oi Hi) in Hci. apply (Hobs j oj Hj) in Hcj. congruence.
Qed.

Lemma cache_mutual_exclusion_witness :
  let st := system_run (system_init (Some demo_segment))
              [Observer_arrives; Observer_arrives; Reader_steps;
               Observer_steps 1 true; Reader_steps; Observer_steps 0 true;
               Observer_steps 1 true] in
  sys_mutex st = Some (T_observer 1) /\
  reader_in_critical (sys_reader st) = false.
Proof.
  cbv zeta. split; [vm_compute; reflexivity|].
  eapply (proj1 (proj2 (proj2 (cache_mutual_exclusion (Some demo_segment) _))) 1%nat);
    vm_compute; reflexivity.
Defined.

(** ** Shutdown of the reader thread *)

Lemma stopped_step st e :
  sys_running st = false ->
  sys_running (system_step st e) = false /\
  (length (sys_log (system_step st e)) + pending_publication (system_step st e)
   <= length (sys_log st) + pending_publication st)%nat.
Proof.
  intros Hrun. destruct e as [s| | | |i choice]; cbn [system_step].
  - split; [exact Hrun|exact (Nat.le_refl _)].
  - split; [reflexivity|exact (Nat.le_refl _)].
  - split; [exact Hrun|exact (Nat.le_refl _)].
  - unfold reader_step, pending_publication. rewrite Hrun.
    destruct (sys_reader st) eqn:Hpc; cbn; rewrite ?Hrun;
      try destruct (sys_mutex st); cbn; rewrite ?Hrun, ?Hpc, ?length_app;
      split; cbn; try assumption; try reflexivity; lia.
  - unfold observer_step, pending_publication.
    destruct (sys_observers st !! i) as [o|]; [|split; [assumption|lia]].
    destruct (pc o); cbn; rewrite ?Hrun;
      try destruct (sys_mutex st); try destruct (_ && _);
      cbn; rewrite ?Hrun; split; try assumption; try reflexivity; lia.
Qed.

Lemma stopped_run st schedule :
  sys_running st = false ->
  sys_running (system_run st schedule) = false /\
  (length (sys_log (system_run st schedule))
   + pending_publication (system_run st schedule)
   <= length (sys_log st) + pending_publication st)%nat.
Proof.
  intros Hrun. induction schedule as [|e schedule [IHr IHl]] using rev_ind.
  - split; [assumption|reflexivity].
  - rewrite system_run_snoc.
    destruct (stopped_step (system_run st schedule) e IHr) as [Hr Hl].
    split; [assumption|lia].
Qed.

Lemma log_prefix_step st e :
  sys_log st `prefix_of` sys_log (system_step st e).
Proof.
  destruct e as [s| | | |i choice]; cbn [system_step]; try reflexivity.
  - unfold reader_step. destruct (sys_reader st); cbn; try reflexivity.
    + destruct (sys_running st); [|reflexivity].
      destruct (sys_shm st); reflexivity.
    + destruct (sys_mutex st); reflexivity.
    + now apply prefix_app_r.
  - unfold observer_step. destruct (sys_observers st !! i) as [o|]; [|reflexivity].
    destruct (pc o); cbn; try reflexivity.
    + destruct (sys_mutex st); reflexivity.
    + destruct (_ && _); reflexivity.
    + destruct (sys_mutex st); reflexivity.
Qed.

Lemma log_prefix_run st schedule :
  sys_log st `prefix_of` sys_log (system_run st schedule).
Proof.
  induction schedule as [|e schedule IH] using rev_ind; [reflexivity|].
  rewrite system_run_snoc. etrans; [exact IH|apply log_prefix_step].
Qed.

(** X15: once a termination signal has cleared [running], the reader thread
    publishes at most once more (the turn it was in), whatever the schedule,
    and what was published stays; [running] is never set again. *)
Theorem reader_stops_after_signal
    (shm : option shared_data_t) (before after : list event) :
  let st := system_run (system_init shm) (before ++ [Signal_stops]) in
  let st' := system_run st after in
  sys_running st' = false /\
  sys_log st `prefix_of` sys_log st' /\
  (length (sys_log st') <= length (sys_log st) + 1)%nat /\
  (sys_reader st = R_top -> sys_log st' = sys_log st).
Proof.
  cbv zeta. set (st := system_run (system_init shm) (before ++ [Signal_stops])).
  assert (Hrun : sys_running st = false).
  { unfold st. rewrite system_run_snoc. reflexivity. }
  destruct (stopped_run st after Hrun) as [Hr Hl].
  pose proof (log_prefix_run st after) as Hpre.
  assert (Hp : (pending_publication st <= 1)%nat)
    by (unfold pending_publication; destruct (sys_reader st); lia).
  split; [exact Hr|]. split; [exact Hpre|]. split; [lia|].
  intros Htop. symmetry. apply prefix_length_eq; [exact Hpre|].
  unfold pending_publication in Hl at 2. rewrite Htop in Hl. lia.
Qed.

(** ** Filling the server *)

Lemma admit_one K st fd :
  acceptor st = Acc_select ->
  K < 0 \/ g_active_connections st < K ->
  0 <= g_active_connections st < INT_MAX ->
  server_run K st (admit_all [fd])
  = mk_server (g_active_connections st + 1) Acc_select (handlers st ++ [fd]) (wire st).
Proof.
  unfold INT_MAX. change (2 ^ 31) with 2147483648.
  intros Hpc HK Hc. unfold server_run. cbn [admit_all app foldl server_step].
  rewrite Hpc. unfold acceptor_step. cbn.
  assert (((0 <? K) && (K <=? g_active_connections st)) = false) as ->.
  { destruct (Z.ltb_spec 0 K), (Z.leb_spec K (g_active_connections st)); cbn; lia. }
  assert ((K =? 0) = false) as -> by (apply Z.eqb_neq; lia).
  cbn. rewrite wrap_int_small
    by (unfold INT_MIN, INT_MAX; change (2 ^ 31) with 2147483648; lia).
  reflexivity.
Qed.

Lemma admit_all_run K fds : forall st,
  acceptor st = Acc_select ->
  K < 0 \/ g_active_connections st + Z.of_nat (length fds) <= K ->
  0 <= g_active_connections st ->
  g_active_connections st + Z.of_nat (length fds) <= INT_MAX ->
  server_run K st (admit_all fds)
  = mk_server (g_active_connections st + Z.of_nat (length fds)) Acc_select
              (handlers st ++ fds) (wire st).
Proof.
  induction fds as [|fd fds IH]; intros st Hpc HK H0 Hmax.
  - cbn. rewrite Z.add_0_r, app_nil_r. destruct st; cbn in *. now subst.
  - cbn [length] in *.
    change (admit_all (fd :: fds)) with (admit_all [fd] ++ admit_all fds).
    rewrite server_run_app, admit_one by (try assumption; lia).
    rewrite IH by (cbn; try reflexivity; lia). cbn.
    rewrite <- app_assoc. f_equal. lia.
Qed.

(** X16: connections that arrive one after the other on a fresh server are
    all given a handler as long as their number does not exceed a positive
    limit, and without any bound when [max_connections] is negative: a
    negative value switches the limit off. *)
Theorem admits_up_to_limit (K : Z) (fds : list Z) :
  K < 0 \/ Z.of_nat (length fds) <= K ->
  Z.of_nat (length fds) <= INT_MAX ->
  server_run K server_init (admit_all fds)
  = mk_server (Z.of_nat (length fds)) Acc_select fds [].
Proof.
  intros HK Hmax.
  rewrite admit_all_run by (cbn; try reflexivity; lia). reflexivity.
Qed.

Lemma admits_up_to_limit_witness :
  server_run (-1) server_init (admit_all [4; 5; 6; 7])
  = mk_server 4 Acc_select [4; 5; 6; 7] [].
Proof.
  apply (admits_up_to_limit (-1) [4; 5; 6; 7]); [left; reflexivity|].
  vm_compute. discriminate.
Defined.

(** ** Attaching the server to the segment *)

(** X17: [init_shared_memory] returns 0 exactly when the named segment
    exists, [mmap] succeeds and the named semaphore exists, and then both
    globals are live; when the segment is missing it returns -1 and leaves
    the globals alone.  [cleanup_shared_memory] resets both globals to NULL,
    also after a failed attach, and doing it twice changes nothing more. *)
Theorem attach_and_cleanup (os : os_names) (mmap_ok : bool) (g : shm_globals) :
  let rc := (init_shared_memory os mmap_ok g).1 in
  let g' := (init_shared_memory os mmap_ok g).2 in
  (rc = 0 \/ rc = -1) /\
  (rc = 0 <->
   is_Some (shm_objects os !! SHM_NAME) /\ mmap_ok = true /\
   SEM_NAME ∈ named_semaphores os) /\
  (rc = 0 -> g' = mk_shm_globals Ptr_live Ptr_live) /\
  (shm_objects os !! SHM_NAME = None -> rc = -1 /\ g' = g) /\
  cleanup_shared_memory g' = mk_shm_globals Ptr_null Ptr_null /\
  cleanup_shared_memory (cleanup_shared_memory g) = cleanup_shared_memory g /\
  attached_segment os (cleanup_shared_memory g) = None.
Proof.
  cbv zeta. unfold init_shared_memory.
  assert (Hclean : forall x, cleanup_shared_memory x = mk_shm_globals Ptr_null Ptr_null).
  { intros [[] []]; reflexivity. }
  rewrite !Hclean.
  destruct (shm_objects os !! SHM_NAME) as [sd|] eqn:Hshm;
    [destruct mmap_ok; [destruct (decide (SEM_NAME ∈ named_semaphores os))|]|];
    cbn [negb fst snd];
    (split; [auto|]); (split; [split|]);
    repeat match goal with |- _ /\ _ => split end;
    intros; try reflexivity; try discriminate; try lia; eauto;
    repeat match goal with H : _ /\ _ |- _ => destruct H end;
    try contradiction; try discriminate;
    try (match goal with H : is_Some None |- _ => destruct H; discriminate end).
Qed.

Lemma init_shared_memory_ok os sd g :
  shm_objects os !! SHM_NAME = Some sd ->
  SEM_NAME ∈ named_semaphores os ->
  init_shared_memory os true g = (0, mk_shm_globals Ptr_live Ptr_live).
Proof.
  intros Hshm Hsem. unfold init_shared_memory. rewrite Hshm. cbn [negb].
  destruct (decide (SEM_NAME ∈ named_semaphores os)); [reflexivity|contradiction].
Qed.

(** X18: a server started after a producer run that ended with status 0
    attaches, even though that producer has exited, and its reader thread
    then finds the ring as the producer left it; on a system where the
    producer never ran the attach fails. *)
Theorem server_attaches_after_producer
    (env : producer_env) (os : os_names) (g : shm_globals) :
  (producer_main env os).1.1 = 0 ->
  let os' := (producer_main env os).1.2 in
  init_shared_memory os' true g = (0, mk_shm_globals Ptr_live Ptr_live) /\
  attached_segment os' (init_shared_memory os' true g).2
  = Some (producer_writes shared_data_zero (omap id (cycles env))) /\
  (init_shared_memory (mk_os ∅ ∅) true g).1 = -1.
Proof.
  intros Hstatus. cbv zeta.
  assert (Hok : shm_open_ok env = true /\ ftruncate_ok env = true /\
                mmap_ok env = true /\ sem_open_ok env = true).
  { unfold producer_main in Hstatus.
    destruct (shm_open_ok env), (ftruncate_ok env), (mmap_ok env), (sem_open_ok env);
      cbn in Hstatus; try discriminate; auto. }
  destruct Hok as (H1 & H2 & H3 & H4).
  rewrite (producer_main_success env os H1 H2 H3 H4). cbn [fst snd].
  erewrite init_shared_memory_ok;
    [|cbn [shm_objects]; apply lookup_insert_eq|cbn [named_semaphores]; set_solver].
  split; [reflexivity|]. split; [|reflexivity].
  unfold attached_segment. cbn [snd g_shared_data g_sem shm_objects].
  etrans; [apply lookup_insert_eq|].
  f_equal. unfold producer_writes. generalize shared_data_zero.
  induction (cycles env) as [|[s|] cs IH]; intros sd; [reflexivity|..]; apply IH.
Qed.

Lemma server_attaches_after_producer_witness :
  let env := mk_producer_env true true true true [Some (reading 1); None] in
  let os' := (producer_main env (mk_os ∅ ∅)).1.2 in
  init_shared_memory os' true (mk_shm_globals Ptr_null Ptr_null)
  = (0, mk_shm_globals Ptr_live Ptr_live).
Proof.
  cbv zeta.
  exact (proj1 (server_attaches_after_producer
                  (mk_producer_env true true true true [Some (reading 1); None])
                  (mk_os ∅ ∅) (mk_shm_globals Ptr_null Ptr_null) eq_refl)).
Defined.

(** ** INT_PIN_CFG *)

Lemma land_1_cases x : Z.land x 1 = 0 \/ Z.land x 1 = 1.
Proof.
  change (Z.land x 1) with (Z.land x (Z.ones 1)). rewrite Z.land_ones by lia.
  change (2 ^ 1) with 2. pose proof (Z.mod_pos_bound x 2 eq_refl). lia.
Qed.

Lemma truth_cases c : truth c = 0 \/ truth c = 1.
Proof. unfold truth. destruct (c =? 0); auto. Qed.

(** X19: unpacking a packed INT_PIN_CFG value gives back the low bit of each
    of the three enum arguments and of the FSYNC level, and the truth value
    of each of the three flags, whether plain [char] is signed or not; bit 0
    of the packed value is never set and the value fits a [char]. *)
Theorem int_pin_cfg_round_trip (char_signed : bool)
    (level open_type latch int_rd_clear fsync_level fsync_en i2c_bypass : Z) :
  let v := mpu6050_int_pin_cfg_pack char_signed level open_type latch
             int_rd_clear fsync_level fsync_en i2c_bypass in
  mpu6050_int_pin_cfg_unpack v
  = mk_int_pin_cfg (Z.land level 1) (Z.land open_type 1) (Z.land latch 1)
                   (truth int_rd_clear) (Z.land fsync_level 1)
                   (truth fsync_en) (truth i2c_bypass) /\
  Z.land v 1 = 0 /\
  to_char char_signed v = v.
Proof.
  cbv zeta. unfold mpu6050_int_pin_cfg_pack.
  destruct (land_1_cases level) as [-> | ->],
           (land_1_cases open_type) as [-> | ->],
           (land_1_cases latch) as [-> | ->],
           (truth_cases int_rd_clear) as [-> | ->],
           (land_1_cases fsync_level) as [-> | ->],
           (truth_cases fsync_en) as [-> | ->],
           (truth_cases i2c_bypass) as [-> | ->],
           char_signed; vm_compute; auto.
Qed.
